(** * Cloud storage app: deduplicating image uploads

    A shallow embedding of [cloud_storage_app/app.py]: the helper functions
    [hash_password], [authenticate_user], [calculate_hash],
    [cleanup_invalid_images], [compress_and_reformat],
    [choose_storage_backend], [upload_image] and [get_user_images].

    The two MongoDB collections ([users], [image_hashes]) are lists of
    documents in insertion order; the storage services, the HTTP client, the
    image library and the digest functions are parameters of the model. Every
    call that leaves the process (and every call of [calculate_hash] and
    [compress_and_reformat]) is recorded as an event, so that statements of
    the kind "save is not called" can be made.

    One call runs at a time, and the calls to the database do not raise: the
    exceptions of the model are those of [requests.get], of the image
    library and of the [save] of a storage backend.

    Of [main], the login form of the sidebar is embedded ([login]); the
    rendering around it is not. *)

From Stdlib Require Import List String Ascii ZArith NArith Lia Bool.
From Stdlib Require Import Init.Byte.
Import ListNotations.
Local Open Scope Z_scope.
Local Open Scope list_scope.

Definition bytes := list byte.

(** ** Python strings

    A Python [str] is modelled by a Rocq [string] whose characters are the
    code points below 256. On this range the two methods the program uses,
    [str.isalnum] and [str.lower], are the following. *)
Module PyStr.

Definition code (c : ascii) : N := N_of_ascii c.

Definition in_range (lo hi n : N) : bool := ((lo <=? n) && (n <=? hi))%N.

(** [c.isalnum()] for one character: letters, decimal digits and the other
    numeric characters of the range. *)
Definition char_isalnum (c : ascii) : bool :=
  let n := code c in
  in_range 48 57 n || in_range 65 90 n || in_range 97 122 n
  || (n =? 170)%N || (n =? 178)%N || (n =? 179)%N || (n =? 181)%N
  || (n =? 185)%N || (n =? 186)%N || in_range 188 190 n
  || in_range 192 214 n || in_range 216 246 n || in_range 248 255 n.

Fixpoint all_isalnum (s : string) : bool :=
  match s with
  | EmptyString => true
  | String c s' => char_isalnum c && all_isalnum s'
  end.

(** [s.isalnum()]: every character is alphanumeric and there is at least
    one character. *)
Definition isalnum (s : string) : bool :=
  match s with
  | EmptyString => false
  | String _ _ => all_isalnum s
  end.

Definition char_lower (c : ascii) : ascii :=
  let n := code c in
  if in_range 65 90 n || in_range 192 214 n || in_range 216 222 n
  then ascii_of_N (n + 32)
  else c.

Fixpoint lower (s : string) : string :=
  match s with
  | EmptyString => EmptyString
  | String c s' => String (char_lower c) (lower s')
  end.

(** [s.rfind(c)] for a one-character needle: the highest index at which
    [c] occurs, or -1. [i] is the index of the head of [s]. *)
Fixpoint rfind_from (c : ascii) (s : string) (i : Z) : Z :=
  match s with
  | EmptyString => -1
  | String a s' =>
      let r := rfind_from c s' (i + 1) in
      if 0 <=? r then r else if Ascii.eqb a c then i else -1
  end.

Definition rfind (c : ascii) (s : string) : Z := rfind_from c s 0.

(** The slices [p[:k]] and [p[k:]] for [0 <= k]. *)
Definition slice_to (k : Z) (p : string) : string :=
  substring 0 (Z.to_nat k) p.
Definition slice_from (k : Z) (p : string) : string :=
  substring (Z.to_nat k) (String.length p - Z.to_nat k) p.

(** [password.encode()]: UTF-8 of the code points below 256. *)
Definition byte_of_N (n : N) : byte :=
  match Byte.of_N n with Some b => b | None => x00 end.

Definition encode_char (c : ascii) : bytes :=
  let n := code c in
  if (n <? 128)%N then [byte_of_N n]
  else [byte_of_N (192 + N.shiftr n 6); byte_of_N (128 + N.land n 63)].

Fixpoint encode (s : string) : bytes :=
  match s with
  | EmptyString => []
  | String c s' => encode_char c ++ encode s'
  end.

End PyStr.

(** ** [os.path.splitext] (the POSIX flavour: separator [/], no alternative
    separator, extension separator [.]) *)
Module os_path.
Import PyStr.

(** The loop that skips the leading dots of the last path component:
    [true] when a character other than [.] is met before [dotIndex].
    [steps] is [dotIndex - filenameIndex], the number of iterations left. *)
Fixpoint finds_non_dot (p : string) (filenameIndex steps : nat) : bool :=
  match steps with
  | O => false
  | S k =>
      match String.get filenameIndex p with
      | Some c =>
          if Ascii.eqb c "." then finds_non_dot p (S filenameIndex) k
          else true
      | None => true
      end
  end.

Definition splitext (p : string) : string * string :=
  let sepIndex := rfind "/" p in
  let dotIndex := rfind "." p in
  if (sepIndex <? dotIndex)
     && finds_non_dot p (Z.to_nat (sepIndex + 1))
                        (Z.to_nat (dotIndex - (sepIndex + 1)))
  then (slice_to dotIndex p, slice_from dotIndex p)
  else (p, EmptyString).

End os_path.

(** ** Documents and collections *)

(** An element of a user's [uploads] array: keys [filename], [url], [hash]. *)
Record UploadRecord := {
  img_filename : string;
  img_url : string;
  img_hash : string
}.

(** A document of the [users] collection. The [uploads] key may be absent
    (the program tests ["uploads" in user]). *)
Record UserAccount := {
  username : string;
  password_hash : string;
  uploads : option (list UploadRecord)
}.

(** A document of the [image_hashes] collection. *)
Record HashEntry := {
  hash : string;
  filename : string;
  url : string;
  uploaded_by : string
}.

Definition UploadRecord_eqb (a b : UploadRecord) : bool :=
  String.eqb (img_filename a) (img_filename b)
  && String.eqb (img_url a) (img_url b)
  && String.eqb (img_hash a) (img_hash b).

(** The part of MongoDB the program relies on, on a collection kept as the
    list of its documents in insertion order. *)
Module Mongo.

Definition find_one {D} (matches : D -> bool) (coll : list D) : option D :=
  find matches coll.

Definition insert_one {D} (doc : D) (coll : list D) : list D :=
  coll ++ [doc].

(** [update_one(filter, update)] without upsert: the first matching
    document is updated, and nothing happens when none matches. *)
Fixpoint update_one {D} (matches : D -> bool) (update : D -> D)
         (coll : list D) : list D :=
  match coll with
  | [] => []
  | d :: rest =>
      if matches d then update d :: rest
      else d :: update_one matches update rest
  end.

Fixpoint delete_one {D} (matches : D -> bool) (coll : list D) : list D :=
  match coll with
  | [] => []
  | d :: rest => if matches d then rest else d :: delete_one matches rest
  end.

(** The update [{"$set": {"uploads": v}}]. *)
Definition set_uploads (v : list UploadRecord) (u : UserAccount) : UserAccount :=
  {| username := username u; password_hash := password_hash u;
     uploads := Some v |}.

(** The update [{"$addToSet": {"uploads": r}}]: [r] is appended unless an
    equal element is there; an absent array is created. *)
Definition addToSet_uploads (r : UploadRecord) (u : UserAccount) : UserAccount :=
  {| username := username u; password_hash := password_hash u;
     uploads :=
       match uploads u with
       | None => Some [r]
       | Some l => if existsb (UploadRecord_eqb r) l then Some l
                   else Some (l ++ [r])
       end |}.

Definition by_username (name : string) (u : UserAccount) : bool :=
  String.eqb (username u) name.

Definition by_hash (h : string) (e : HashEntry) : bool :=
  String.eqb (hash e) h.

End Mongo.

(** ** The outside world *)

(** What [requests.get] does: it raises, or it returns a response with a
    status code. *)
Inductive Response :=
| RequestException
| HTTP (status_code : Z).

(** The two backends [choose_storage_backend] selects from. *)
Inductive StorageBackend :=
| FirebaseStorage
| CloudinaryStorage.

(** The services the program calls. [World] is the state of everything
    outside the process and the database; a [save] either raises ([inl],
    with the text of the exception) or returns the URL of the object. *)
Class Services := {
  World : Type;
  md5_hexdigest : bytes -> string;
  sha256_hexdigest : bytes -> string;
  requests_get : string -> World -> Response * World;
  backend_save : StorageBackend -> string -> bytes -> World
                 -> (string + string) * World;
  PILImage : Type;
  Image_open : bytes -> option PILImage;
  Image_size : PILImage -> Z * Z;
  Image_convert_RGB : PILImage -> option PILImage;
  Image_save_JPEG : PILImage -> Z -> option bytes
}.

Inductive Event :=
| EvHash (image_data : bytes)
| EvCompress (image_data : bytes) (quality : Z)
| EvSave (backend : StorageBackend) (name : string) (data : bytes)
         (result : string + string)
| EvGet (target : string) (response : Response).

Definition is_save (e : Event) : bool :=
  match e with EvSave _ _ _ _ => true | _ => false end.
Definition is_compress (e : Event) : bool :=
  match e with EvCompress _ _ => true | _ => false end.
Definition is_hash (e : Event) : bool :=
  match e with EvHash _ => true | _ => false end.

(** What [upload_image] returns: the five messages of the program. *)
Inductive Outcome :=
| InvalidFormat
| Duplicate (link : string)
| ProcessingFailed
| Success (link : string)
| UploadFailed (detail : string).

Definition outcome_url (o : Outcome) : option string :=
  match o with
  | Duplicate u | Success u => Some u
  | _ => None
  end.

(** ** The program *)

Section Program.
Context {SV : Services}.

(** [mongo_db["users"]], [hashes_collection] and the world outside. *)
Record State := {
  users : list UserAccount;
  image_hashes : list HashEntry;
  world : World
}.

(** A computation reads and writes the state and emits events. *)
Definition M (A : Type) : Type := State -> A * State * list Event.

Definition ret {A} (a : A) : M A := fun s => (a, s, []).

Definition bind {A B} (m : M A) (f : A -> M B) : M B :=
  fun s =>
    let '(a, s1, e1) := m s in
    let '(b, s2, e2) := f a s1 in
    (b, s2, e1 ++ e2).

Notation "x <- m ;; k" := (bind m (fun x => k))
  (at level 100, m at next level, right associativity).
Notation "m ;;; k" := (bind m (fun _ => k))
  (at level 100, right associativity).

Definition users_find_one (name : string) : M (option UserAccount) :=
  fun s => (Mongo.find_one (Mongo.by_username name) (users s), s, []).

Definition users_insert_one (doc : UserAccount) : M unit :=
  fun s => (tt, {| users := Mongo.insert_one doc (users s);
                   image_hashes := image_hashes s;
                   world := world s |}, []).

Definition users_update_one (name : string)
           (update : UserAccount -> UserAccount) : M unit :=
  fun s => (tt, {| users := Mongo.update_one (Mongo.by_username name) update (users s);
                   image_hashes := image_hashes s;
                   world := world s |}, []).

Definition hashes_find_one (h : string) : M (option HashEntry) :=
  fun s => (Mongo.find_one (Mongo.by_hash h) (image_hashes s), s, []).

Definition hashes_insert_one (doc : HashEntry) : M unit :=
  fun s => (tt, {| users := users s;
                   image_hashes := Mongo.insert_one doc (image_hashes s);
                   world := world s |}, []).

Definition hashes_delete_one (h : string) : M unit :=
  fun s => (tt, {| users := users s;
                   image_hashes := Mongo.delete_one (Mongo.by_hash h) (image_hashes s);
                   world := world s |}, []).

(** [requests.get(url)] *)
Definition get (target : string) : M Response :=
  fun s =>
    let '(r, w) := requests_get target (world s) in
    (r, {| users := users s; image_hashes := image_hashes s; world := w |},
     [EvGet target r]).

(** [storage_backend.save(filename, data)] *)
Definition save (backend : StorageBackend) (name : string) (data : bytes)
  : M (string + string) :=
  fun s =>
    let '(r, w) := backend_save backend name data (world s) in
    (r, {| users := users s; image_hashes := image_hashes s; world := w |},
     [EvSave backend name data r]).

Definition hash_password (password : string) : string :=
  sha256_hexdigest (PyStr.encode password).

Definition authenticate_user (username password : string) : M bool :=
  if negb (PyStr.isalnum username) then ret false
  else
    user <- users_find_one username ;;
    let hashed_pw := hash_password password in
    match user with
    | Some u => ret (String.eqb hashed_pw (password_hash u))
    | None =>
        users_insert_one {| username := username;
                            password_hash := hashed_pw;
                            uploads := Some [] |} ;;;
        ret true
    end.

Definition calculate_hash (image_data : bytes) : M string :=
  fun s => (md5_hexdigest image_data, s, [EvHash image_data]).

(** The body of the loop of [cleanup_invalid_images], over the records that
    are left, with the list [valid_uploads] built so far. A request that
    raises lands in the bare [except], which goes on with the next record. *)
Fixpoint cleanup_loop (imgs valid_uploads : list UploadRecord)
  : M (list UploadRecord) :=
  match imgs with
  | [] => ret valid_uploads
  | img :: rest =>
      response <- get (img_url img) ;;
      match response with
      | HTTP status_code =>
          if status_code =? 200
          then cleanup_loop rest (valid_uploads ++ [img])
          else hashes_delete_one (img_hash img) ;;;
               cleanup_loop rest valid_uploads
      | RequestException => cleanup_loop rest valid_uploads
      end
  end.

Definition cleanup_invalid_images (username : string) : M unit :=
  user <- users_find_one username ;;
  match user with
  | None => ret tt
  | Some u =>
      match uploads u with
      | None => ret tt
      | Some imgs =>
          valid_uploads <- cleanup_loop imgs [] ;;
          users_update_one username (Mongo.set_uploads valid_uploads)
      end
  end.

(** The image work of [compress_and_reformat]: every exception of the
    image library, and the [ValueError] of the size test, end in [None]. *)
Definition reformat (image_data : bytes) (quality : Z) : option bytes :=
  match Image_open image_data with
  | None => None
  | Some img =>
      if fst (Image_size img) * snd (Image_size img) >? 10000000 then None
      else
        match Image_convert_RGB img with
        | None => None
        | Some rgb => Image_save_JPEG rgb quality
        end
  end.

Definition compress_and_reformat (image_data : bytes) (quality : Z)
  : M (option bytes) :=
  fun s => (reformat image_data quality, s, [EvCompress image_data quality]).

Definition choose_storage_backend (compressed_data : bytes) : StorageBackend :=
  if Z.of_nat (List.length compressed_data) <=? 140 * 1024 then FirebaseStorage
  else CloudinaryStorage.

Definition accepted_extensions : list string :=
  [".jpg"; ".jpeg"; ".png"; ".gif"; ".bmp"]%string.

(** [os.path.splitext(file_name)[1].lower()] *)
Definition file_ext (file_name : string) : string :=
  PyStr.lower (snd (os_path.splitext file_name)).

Definition upload_image (username : string) (image_data : bytes)
           (file_name : string) : M Outcome :=
  img_hash <- calculate_hash image_data ;;
  let file_ext := file_ext file_name in
  let final_name := (img_hash ++ "__compressed.jpg")%string in
  if negb (existsb (String.eqb file_ext) accepted_extensions)
  then ret InvalidFormat
  else
    existing <- hashes_find_one img_hash ;;
    match existing with
    | Some e =>
        users_update_one username
          (Mongo.addToSet_uploads {| img_filename := final_name;
                                     img_url := url e;
                                     img_hash := img_hash |}) ;;;
        ret (Duplicate (url e))
    | None =>
        compressed <- compress_and_reformat image_data 85 ;;
        match compressed with
        | None => ret ProcessingFailed
        | Some compressed_data =>
            let storage_backend := choose_storage_backend compressed_data in
            r <- save storage_backend final_name compressed_data ;;
            match r with
            | inl detail => ret (UploadFailed detail)
            | inr link =>
                hashes_insert_one {| hash := img_hash;
                                     filename := final_name;
                                     url := link;
                                     uploaded_by := username |} ;;;
                users_update_one username
                  (Mongo.addToSet_uploads {| img_filename := final_name;
                                             img_url := link;
                                             img_hash := img_hash |}) ;;;
                ret (Success link)
            end
        end
    end.

(** The object name and the ledger entry [upload_image] builds for an
    image. *)
Definition final_name_of (image_data : bytes) : string :=
  (md5_hexdigest image_data ++ "__compressed.jpg")%string.

Definition record_for (image_data : bytes) (link : string) : UploadRecord :=
  {| img_filename := final_name_of image_data;
     img_url := link;
     img_hash := md5_hexdigest image_data |}.

Definition get_user_images (username : string) : M (list (string * string)) :=
  user <- users_find_one username ;;
  match user with
  | Some u =>
      match uploads u with
      | Some imgs => ret (map (fun img => (img_filename img, img_url img)) imgs)
      | None => ret []
      end
  | None => ret []
  end.

(** The ledger of a user: the [uploads] array of the first document with
    that name, empty when there is none. *)
Definition ledger (name : string) (s : State) : list UploadRecord :=
  match Mongo.find_one (Mongo.by_username name) (users s) with
  | Some u => match uploads u with Some l => l | None => [] end
  | None => []
  end.

(** The test of the cleanup on the answer of a URL: a response whose
    status code is 200. *)
Definition reachable (r : Response) : bool :=
  match r with
  | HTTP status_code => status_code =? 200
  | RequestException => false
  end.

Definition with_world (s : State) (w : World) : State :=
  {| users := users s; image_hashes := image_hashes s; world := w |}.

Definition count_saves (evs : list Event) : nat :=
  List.length (filter is_save evs).

End Program.

Arguments State {SV}.

(** ** The login form of [main]

    The body of [if login_button:] in the sidebar: the two text inputs, the
    session state of Streamlit (keys [authenticated] and [username]) and the
    message shown ([st.error] or [st.success]). *)

Record SessionState := {
  authenticated : bool;
  session_username : option string
}.

Inductive Notice :=
| EnterBoth
| Welcome (name : string)
| AuthenticationFailed.

Section Callers.
Context {SV : Services}.

Notation "x <- m ;; k" := (bind m (fun x => k))
  (at level 100, m at next level, right associativity).
Notation "m ;;; k" := (bind m (fun _ => k))
  (at level 100, right associativity).

(** The document [authenticate_user] inserts for a new username. *)
Definition new_account (name password : string) : UserAccount :=
  {| username := name;
     password_hash := hash_password password;
     uploads := Some [] |}.

(** The document [upload_image] inserts in the index for a new image. *)
Definition new_entry (name : string) (image_data : bytes) (link : string)
  : HashEntry :=
  {| hash := md5_hexdigest image_data;
     filename := final_name_of image_data;
     url := link;
     uploaded_by := name |}.

(** Every pair of the list is a record with an answer its URL gave. *)
Definition answered (answers : list (UploadRecord * Response)) : Prop :=
  forall p, In p answers ->
            exists w, fst (requests_get (img_url (fst p)) w) = snd p.

Definition login (username password : string) (session : SessionState)
  : M (SessionState * Notice) :=
  if String.eqb username "" || String.eqb password ""
  then ret (session, EnterBoth)
  else
    ok <- authenticate_user username password ;;
    if ok then
      cleanup_invalid_images username ;;;
      ret ({| authenticated := true; session_username := Some username |},
           Welcome username)
    else ret (session, AuthenticationFailed).

End Callers.

(** ** A cleanup read off the answers it got

    A run of the loop of [cleanup_invalid_images] pairs each record of the
    ledger with the answer of its URL. These functions give the requests,
    the ledger and the index that go with a list of such pairs. *)

(** A response with a status code other than 200. *)
Definition other_status (r : Response) : bool :=
  match r with
  | HTTP status_code => negb (status_code =? 200)
  | RequestException => false
  end.

Definition requests_of (answers : list (UploadRecord * Response)) : list Event :=
  map (fun p => EvGet (img_url (fst p)) (snd p)) answers.

Definition kept_records (answers : list (UploadRecord * Response))
  : list UploadRecord :=
  map fst (filter (fun p => reachable (snd p)) answers).

Definition pruned_index (answers : list (UploadRecord * Response))
           (index : list HashEntry) : list HashEntry :=
  fold_left
    (fun hs p =>
       if other_status (snd p)
       then Mongo.delete_one (Mongo.by_hash (img_hash (fst p))) hs
       else hs)
    answers index.

(** ** A small instance of the services, to run the program on

    The digests are the bytes written in hexadecimal; an image file is two
    bytes, its width and height in hundreds of pixels, followed by its
    payload; the world is a clock that counts the calls made; the storage
    services are up or down together; a URL answers 200 unless the table
    [responses] lists another answer for it. *)
Module Demo.

Record picture := {
  width : Z;
  height : Z;
  payload : bytes
}.

Definition hex_digit (n : N) : ascii :=
  ascii_of_N (if (n <? 10)%N then 48 + n else 87 + n).

Fixpoint digest (data : bytes) : string :=
  match data with
  | [] => EmptyString
  | b :: rest =>
      let n := Byte.to_N b in
      String (hex_digit (n / 16)) (String (hex_digit (n mod 16)) (digest rest))
  end.

Definition open (data : bytes) : option picture :=
  match data with
  | w :: h :: rest =>
      Some {| width := 100 * Z.of_N (Byte.to_N w);
              height := 100 * Z.of_N (Byte.to_N h);
              payload := rest |}
  | _ => None
  end.

Definition base (b : StorageBackend) : string :=
  match b with
  | FirebaseStorage => "https://firebase.example/uploads/"
  | CloudinaryStorage => "https://cloudinary.example/uploads/"
  end.

Definition alice : UserAccount :=
  {| username := "alice"; password_hash := "wonderland"; uploads := Some [] |}.
Definition bob : UserAccount :=
  {| username := "bob"; password_hash := "builder"; uploads := Some [] |}.

(** A 2000 x 3000 image with a three-byte payload, and a 5000 x 5000 one. *)
Definition small_image : bytes := [x14; x1e; x01; x02; x03].
Definition huge_image : bytes := [x32; x32; x01].

(** Where the small image lands when Firebase stores it. *)
Definition small_url : string :=
  "https://firebase.example/uploads/141e010203__compressed.jpg".

(** The ledger entry and the index entry of the object of fingerprint [h],
    uploaded by alice. *)
Definition record_of (h : string) : UploadRecord :=
  {| img_filename := (h ++ "__compressed.jpg")%string;
     img_url := (base FirebaseStorage ++ h ++ "__compressed.jpg")%string;
     img_hash := h |}.

Definition entry_of (h : string) : HashEntry :=
  {| hash := h;
     filename := (h ++ "__compressed.jpg")%string;
     url := (base FirebaseStorage ++ h ++ "__compressed.jpg")%string;
     uploaded_by := "alice" |}.

Section Instance.
Variable storage_up : bool.
Variable responses : list (string * Response).

Definition respond (target : string) (clock : nat) : Response * nat :=
  match find (fun p => String.eqb (fst p) target) responses with
  | Some p => (snd p, S clock)
  | None => (HTTP 200, S clock)
  end.

Definition store (b : StorageBackend) (name : string) (data : bytes)
           (clock : nat) : (string + string) * nat :=
  if storage_up then (inr (base b ++ name)%string, S clock)
  else (inl "service unavailable"%string, S clock).

Definition services : Services := {|
  World := nat;
  md5_hexdigest := digest;
  sha256_hexdigest := digest;
  requests_get := respond;
  backend_save := store;
  PILImage := picture;
  Image_open := open;
  Image_size := fun p => (width p, height p);
  Image_convert_RGB := fun p => Some p;
  Image_save_JPEG := fun p _ => Some (payload p)
|}.

(** Two accounts, nothing stored yet. *)
Definition fresh : State (SV := services) :=
  @Build_State services [alice; bob] [] O.

(** Alice holds the records of [hs], all of them indexed. *)
Definition holding (hs : list string) : State (SV := services) :=
  @Build_State services
    [ {| username := "alice"; password_hash := "wonderland";
         uploads := Some (map record_of hs) |}; bob ]
    (map entry_of hs) O.

(** Alice holds the records of [held]; the index has the entries of
    [indexed]. *)
Definition holding_indexed (held indexed : list string)
  : State (SV := services) :=
  @Build_State services
    [ {| username := "alice"; password_hash := "wonderland";
         uploads := Some (map record_of held) |}; bob ]
    (map entry_of indexed) O.

End Instance.

(** The session before any login. *)
Definition logged_out : SessionState :=
  {| authenticated := false; session_username := None |}.

(** Everything works. *)
Definition sunny : Services := services true [].
(** The storage services are down. *)
Definition stormy : Services := services false [].
(** The object of fingerprint [h] answers with [r]; the rest works. *)
Definition answering (h : string) (r : Response) : Services :=
  services true [(img_url (record_of h), r)].

End Demo.

(** * Properties *)

(** ** The string functions on examples *)

Example splitext_plain : os_path.splitext "photo.JPG" = ("photo"%string, ".JPG"%string).
Proof. reflexivity. Qed.
Example splitext_two_dots : os_path.splitext "x.tar.GZ" = ("x.tar"%string, ".GZ"%string).
Proof. reflexivity. Qed.
Example splitext_hidden : os_path.splitext "a/.bashrc" = ("a/.bashrc"%string, ""%string).
Proof. reflexivity. Qed.
Example splitext_leading_dots : os_path.splitext "..jpg" = ("..jpg"%string, ""%string).
Proof. reflexivity. Qed.
Example splitext_dot_in_dir : os_path.splitext "a.b/c" = ("a.b/c"%string, ""%string).
Proof. reflexivity. Qed.
Example splitext_double : os_path.splitext "a..jpg" = ("a."%string, ".jpg"%string).
Proof. reflexivity. Qed.
Example lower_mixed : PyStr.lower ".JpEg" = ".jpeg"%string.
Proof. reflexivity. Qed.
Example isalnum_examples :
  PyStr.isalnum "alice01" = true /\ PyStr.isalnum "" = false
  /\ PyStr.isalnum "bob smith" = false /\ PyStr.isalnum "a_b" = false.
Proof. repeat split; reflexivity. Qed.

(** ** Facts about the collections *)

Lemma UploadRecord_eqb_eq (a b : UploadRecord) :
  UploadRecord_eqb a b = true <-> a = b.
Proof.
  unfold UploadRecord_eqb. split.
  - intros H. apply andb_prop in H as [H H3]. apply andb_prop in H as [H1 H2].
    apply String.eqb_eq in H1, H2, H3.
    destruct a, b; simpl in *; congruence.
  - intros ->. rewrite !String.eqb_refl. reflexivity.
Qed.

Lemma existsb_UploadRecord (r : UploadRecord) (l : list UploadRecord) :
  existsb (UploadRecord_eqb r) l = true <-> In r l.
Proof.
  rewrite existsb_exists. split.
  - intros (x & Hx & E). apply UploadRecord_eqb_eq in E. now subst.
  - intros H. exists r. split; [assumption | now apply UploadRecord_eqb_eq].
Qed.

Module MongoFacts.
Import Mongo.

Section Collections.
Context {D : Type} (matches : D -> bool).

Lemma update_one_none (update : D -> D) (coll : list D) :
  find_one matches coll = None -> update_one matches update coll = coll.
Proof.
  unfold find_one. induction coll as [|d rest IH]; simpl; [reflexivity|].
  destruct (matches d); [discriminate|].
  intros H. now rewrite IH.
Qed.

Lemma update_one_fixed (update : D -> D) (coll : list D) (d : D) :
  find_one matches coll = Some d -> update d = d ->
  update_one matches update coll = coll.
Proof.
  unfold find_one. induction coll as [|x rest IH]; simpl; [discriminate|].
  destruct (matches x).
  - intros [= ->] ->. reflexivity.
  - intros H E. now rewrite IH.
Qed.

Lemma find_one_update_one (update : D -> D) (coll : list D) :
  (forall d, matches (update d) = matches d) ->
  find_one matches (update_one matches update coll)
  = option_map update (find_one matches coll).
Proof.
  intros Hm. unfold find_one.
  induction coll as [|x rest IH]; simpl; [reflexivity|].
  destruct (matches x) eqn:E; simpl.
  - now rewrite Hm, E.
  - now rewrite E.
Qed.

Lemma find_one_insert_one (doc : D) (coll : list D) :
  find_one matches coll = None -> matches doc = true ->
  find_one matches (insert_one doc coll) = Some doc.
Proof.
  unfold find_one, insert_one.
  induction coll as [|x rest IH]; simpl; intros H Hd.
  - now rewrite Hd.
  - destruct (matches x); [discriminate | now apply IH].
Qed.

Lemma find_one_matches (coll : list D) (d : D) :
  find_one matches coll = Some d -> matches d = true.
Proof. unfold find_one. intros H. now apply find_some in H. Qed.

Lemma delete_one_none (coll : list D) :
  find_one matches coll = None -> delete_one matches coll = coll.
Proof.
  unfold find_one. induction coll as [|x rest IH]; simpl; [reflexivity|].
  destruct (matches x); [discriminate|].
  intros H. now rewrite IH.
Qed.

(** When at most one document matches, none is left after a delete. *)
Lemma find_one_delete_one (coll : list D) :
  (List.length (filter matches coll) <= 1)%nat ->
  find_one matches (delete_one matches coll) = None.
Proof.
  unfold find_one. induction coll as [|x rest IH]; simpl; [reflexivity|].
  destruct (matches x) eqn:E; simpl; intros H.
  - destruct (filter matches rest) as [|y l] eqn:F; [|simpl in H; lia].
    destruct (find matches rest) as [z|] eqn:G; [|reflexivity].
    apply find_some in G as [G1 G2].
    assert (In z (filter matches rest)) by (apply filter_In; now split).
    rewrite F in H0. contradiction.
  - rewrite E. now apply IH.
Qed.

End Collections.

Lemma by_username_set_uploads name v u :
  by_username name (set_uploads v u) = by_username name u.
Proof. reflexivity. Qed.

Lemma by_username_addToSet name r u :
  by_username name (addToSet_uploads r u) = by_username name u.
Proof. reflexivity. Qed.

Lemma addToSet_present r u l :
  uploads u = Some l -> In r l -> addToSet_uploads r u = u.
Proof.
  intros E H. unfold addToSet_uploads. rewrite E.
  apply existsb_UploadRecord in H. rewrite H.
  destruct u; simpl in *. now subst.
Qed.

Lemma addToSet_In r u :
  exists l, uploads (addToSet_uploads r u) = Some l /\ In r l.
Proof.
  unfold addToSet_uploads; simpl.
  destruct (uploads u) as [l|].
  - destruct (existsb (UploadRecord_eqb r) l) eqn:E.
    + exists l. split; [reflexivity | now apply existsb_UploadRecord].
    + exists (l ++ [r]). split; [reflexivity|].
      apply in_or_app. right. now left.
  - exists [r]. split; [reflexivity | now left].
Qed.

End MongoFacts.

(** ** Authentication *)

Section Authentication.
Context {SV : Services}.

Lemma isalnum_false_iff (name : string) :
  PyStr.isalnum name = false <->
  name = EmptyString
  \/ exists c, In c (list_ascii_of_string name) /\ PyStr.char_isalnum c = false.
Proof.
  assert (A : forall s, PyStr.all_isalnum s = false <->
              exists c, In c (list_ascii_of_string s)
                        /\ PyStr.char_isalnum c = false).
  { induction s as [|a s IH]; simpl.
    - split; [discriminate | intros (c & [] & _)].
    - rewrite andb_false_iff, IH. split.
      + intros [H | (c & Hc & Hf)].
        * exists a. split; [now left | assumption].
        * exists c. split; [now right | assumption].
      + intros (c & [-> | Hc] & Hf); [now left|].
        right. exists c. now split. }
  destruct name as [|a s].
  - simpl. split; [now left | reflexivity].
  - change (PyStr.isalnum (String a s)) with (PyStr.all_isalnum (String a s)).
    rewrite A. split; [now right|].
    intros [H | H]; [discriminate | assumption].
Qed.

(** C10: a username that is empty or holds a character that is not
    alphanumeric is turned away at once: the answer is [false], no account
    is created and nothing is looked up, whatever the password and whether
    or not a document with that name exists. *)
Theorem authenticate_user_rejects_non_alnum
        (name password : string) (s : State) :
  (name = EmptyString
   \/ exists c, In c (list_ascii_of_string name)
                /\ PyStr.char_isalnum c = false) ->
  authenticate_user name password s = (false, s, []).
Proof.
  intros H. apply isalnum_false_iff in H.
  unfold authenticate_user. now rewrite H.
Qed.

(** C8: for an account that exists, a password whose hash differs from the
    stored one gets the value [false], and the state, the [users]
    collection with it, is the one before the call. *)
Theorem authenticate_user_wrong_password
        (name password : string) (s : State) (u : UserAccount) :
  Mongo.find_one (Mongo.by_username name) (users s) = Some u ->
  hash_password password <> password_hash u ->
  authenticate_user name password s = (false, s, []).
Proof.
  intros Hu Hp. unfold authenticate_user.
  destruct (PyStr.isalnum name); simpl; [|reflexivity].
  unfold bind, users_find_one, ret. rewrite Hu. simpl.
  apply String.eqb_neq in Hp. now rewrite Hp.
Qed.

(** C7, as the program has it: for an alphanumeric username that is not in
    the [users] collection, any password gets [true], and the collection
    gains, at its end, the account with that username, the hash of the
    password and an empty ledger, which is then the one found under that
    name. *)
Theorem authenticate_user_registers
        (name password : string) (s : State) :
  PyStr.isalnum name = true ->
  Mongo.find_one (Mongo.by_username name) (users s) = None ->
  let account := {| username := name;
                    password_hash := hash_password password;
                    uploads := Some [] |} in
  exists s',
    authenticate_user name password s = (true, s', [])
    /\ users s' = users s ++ [account]
    /\ Mongo.find_one (Mongo.by_username name) (users s') = Some account
    /\ image_hashes s' = image_hashes s.
Proof.
  intros Ha Hn account. unfold authenticate_user. rewrite Ha. simpl.
  unfold bind, users_find_one, users_insert_one, ret. rewrite Hn. simpl.
  eexists. split; [reflexivity|]. simpl. repeat split.
  apply MongoFacts.find_one_insert_one; [assumption|].
  unfold Mongo.by_username. simpl. apply String.eqb_refl.
Qed.

End Authentication.

(** ** Backend selection *)

(** C5: the backend depends on the length of the payload only; 143360 bytes
    (140 KiB) go to Firebase and 143361 bytes to Cloudinary. *)
Theorem choose_storage_backend_threshold :
  (forall d1 d2 : bytes,
      List.length d1 = List.length d2 ->
      choose_storage_backend d1 = choose_storage_backend d2)
  /\ (forall d : bytes,
         Z.of_nat (List.length d) = 143360 ->
         choose_storage_backend d = FirebaseStorage)
  /\ (forall d : bytes,
         Z.of_nat (List.length d) = 143361 ->
         choose_storage_backend d = CloudinaryStorage).
Proof.
  unfold choose_storage_backend. repeat split.
  - intros d1 d2 ->. reflexivity.
  - intros d ->. reflexivity.
  - intros d ->. reflexivity.
Qed.

Lemma choose_storage_backend_small (d : bytes) :
  Z.of_nat (List.length d) <= 143360 ->
  choose_storage_backend d = FirebaseStorage.
Proof.
  intros H. unfold choose_storage_backend.
  destruct (Z.leb_spec (Z.of_nat (List.length d)) (140 * 1024)); [reflexivity | lia].
Qed.

Lemma choose_storage_backend_large (d : bytes) :
  143360 < Z.of_nat (List.length d) ->
  choose_storage_backend d = CloudinaryStorage.
Proof.
  intros H. unfold choose_storage_backend.
  destruct (Z.leb_spec (Z.of_nat (List.length d)) (140 * 1024)); [lia | reflexivity].
Qed.

(** ** Uploads *)

Section Uploads.
Context {SV : Services}.

Lemma accepted_iff (file_name : string) :
  existsb (String.eqb (file_ext file_name)) accepted_extensions = true
  <-> In (file_ext file_name) accepted_extensions.
Proof.
  rewrite existsb_exists. split.
  - intros (x & Hx & E). apply String.eqb_eq in E. now subst.
  - intros H. exists (file_ext file_name). split; [assumption|].
    apply String.eqb_refl.
Qed.

(** One run of [upload_image], path by path. *)
Lemma upload_image_run (name : string) (image_data : bytes)
      (file_name : string) (s : State) :
  upload_image name image_data file_name s =
  let img_hash := md5_hexdigest image_data in
  let final_name := final_name_of image_data in
  if negb (existsb (String.eqb (file_ext file_name)) accepted_extensions)
  then (InvalidFormat, s, [EvHash image_data])
  else
    match Mongo.find_one (Mongo.by_hash img_hash) (image_hashes s) with
    | Some e =>
        (Duplicate (url e),
         {| users := Mongo.update_one (Mongo.by_username name)
                       (Mongo.addToSet_uploads (record_for image_data (url e)))
                       (users s);
            image_hashes := image_hashes s;
            world := world s |},
         [EvHash image_data])
    | None =>
        match reformat image_data 85 with
        | None =>
            (ProcessingFailed, s, [EvHash image_data; EvCompress image_data 85])
        | Some c =>
            let b := choose_storage_backend c in
            let '(r, w) := backend_save b final_name c (world s) in
            match r with
            | inl detail =>
                (UploadFailed detail,
                 {| users := users s; image_hashes := image_hashes s;
                    world := w |},
                 [EvHash image_data; EvCompress image_data 85;
                  EvSave b final_name c r])
            | inr link =>
                (Success link,
                 {| users := Mongo.update_one (Mongo.by_username name)
                               (Mongo.addToSet_uploads (record_for image_data link))
                               (users s);
                    image_hashes :=
                      Mongo.insert_one {| hash := img_hash;
                                          filename := final_name;
                                          url := link;
                                          uploaded_by := name |}
                                       (image_hashes s);
                    world := w |},
                 [EvHash image_data; EvCompress image_data 85;
                  EvSave b final_name c r])
            end
        end
    end.
Proof.
  unfold upload_image, bind, ret, calculate_hash, hashes_find_one,
    users_update_one, compress_and_reformat, save, hashes_insert_one,
    final_name_of, record_for.
  cbv zeta.
  destruct (negb (existsb (String.eqb (file_ext file_name)) accepted_extensions));
    [reflexivity|].
  destruct (Mongo.find_one _ (image_hashes s)) as [e|]; [reflexivity|].
  destruct (reformat image_data 85) as [c|]; [|reflexivity].
  destruct (backend_save _ _ c (world s)) as [[detail|link] w]; reflexivity.
Qed.

(** C4, as the program has it: a file whose extension (that of the
    original name, lowered) is not one of the five accepted ones is
    rejected as an invalid format. The fingerprint of the bytes has been
    computed by then, and it is the only thing that has happened: no
    lookup in the index, no normalization, no save, and the state is the
    one before the call, whatever the bytes are. *)
Theorem upload_image_extension_gate
        (name : string) (image_data : bytes) (file_name : string) (s : State) :
  ~ In (file_ext file_name) accepted_extensions ->
  upload_image name image_data file_name s
  = (InvalidFormat, s, [EvHash image_data]).
Proof.
  intros H. rewrite upload_image_run. cbv zeta.
  destruct (existsb (String.eqb (file_ext file_name)) accepted_extensions) eqn:E.
  - apply accepted_iff in E. contradiction.
  - reflexivity.
Qed.

(** C1: when the save of the backend raises, the outcome is the upload
    failure with the text of the exception, the [image_hashes] and [users]
    collections are the ones before the call, so that no ledger changes,
    and the index holds no entry for the fingerprint. *)
Theorem upload_image_save_raises
        (name : string) (image_data : bytes) (file_name : string)
        (s s' : State) (out : Outcome) (evs : list Event)
        (b : StorageBackend) (n : string) (c : bytes) (detail : string) :
  upload_image name image_data file_name s = (out, s', evs) ->
  In (EvSave b n c (inl detail)) evs ->
  out = UploadFailed detail
  /\ image_hashes s' = image_hashes s
  /\ users s' = users s
  /\ (forall who, ledger who s' = ledger who s)
  /\ Mongo.find_one (Mongo.by_hash (md5_hexdigest image_data))
                    (image_hashes s') = None.
Proof.
  rewrite upload_image_run. cbv zeta.
  destruct (negb _).
  { intros [= <- <- <-] [H|[]]. discriminate H. }
  destruct (Mongo.find_one _ (image_hashes s)) as [e|] eqn:F.
  { intros [= <- <- <-] [H|[]]. discriminate H. }
  destruct (reformat image_data 85) as [c'|].
  2:{ intros [= <- <- <-] [H|[H|[]]]; discriminate H. }
  destruct (backend_save _ _ c' (world s)) as [[d|link] w].
  - intros [= <- <- <-] [H|[H|[H|[]]]]; try discriminate H.
    injection H as _ _ _ ->. simpl. repeat split; try assumption.
  - intros [= <- <- <-] [H|[H|[H|[]]]]; discriminate H.
Qed.

(** C6: when the image does not decode (opening or converting it raises) or
    has more than 10,000,000 pixels, the normalization gives nothing at any
    quality, and an upload that gets to it (accepted extension, fingerprint
    not in the index) ends as a processing failure in the state it started
    from: no index entry, no ledger entry, no save. *)
Theorem upload_image_processing_failed
        (name : string) (image_data : bytes) (file_name : string) (s : State) :
  In (file_ext file_name) accepted_extensions ->
  Mongo.find_one (Mongo.by_hash (md5_hexdigest image_data)) (image_hashes s)
  = None ->
  (Image_open image_data = None
   \/ exists img, Image_open image_data = Some img
                  /\ (Image_convert_RGB img = None
                      \/ 10000000 < fst (Image_size img) * snd (Image_size img))) ->
  (forall quality, reformat image_data quality = None)
  /\ upload_image name image_data file_name s
     = (ProcessingFailed, s, [EvHash image_data; EvCompress image_data 85]).
Proof.
  intros Hext Hnew Hbad.
  assert (R : forall quality, reformat image_data quality = None).
  { intros quality. unfold reformat.
    destruct Hbad as [-> | (img & -> & [Hc | Hs])]; [reflexivity | |].
    - rewrite Hc. now destruct (_ >? _).
    - destruct (Z.gtb_spec (fst (Image_size img) * snd (Image_size img)) 10000000);
        [reflexivity | lia]. }
  split; [exact R|].
  rewrite upload_image_run. cbv zeta.
  apply accepted_iff in Hext. rewrite Hext, Hnew, R. reflexivity.
Qed.

(** The ledger of an account after [$addToSet] on the first document of its
    name. *)
Lemma ledger_after_addToSet (name : string) (r : UploadRecord)
      (s s' : State) (account : UserAccount) :
  Mongo.find_one (Mongo.by_username name) (users s) = Some account ->
  users s' = Mongo.update_one (Mongo.by_username name)
               (Mongo.addToSet_uploads r) (users s) ->
  ledger name s'
  = if existsb (UploadRecord_eqb r) (ledger name s) then ledger name s
    else ledger name s ++ [r].
Proof.
  intros Ha Hu. unfold ledger. rewrite Hu.
  rewrite MongoFacts.find_one_update_one
    by (intros d; apply MongoFacts.by_username_addToSet).
  rewrite Ha. simpl.
  destruct (uploads account) as [l|]; simpl.
  - now destruct (existsb (UploadRecord_eqb r) l).
  - reflexivity.
Qed.

(** An upload that reports a URL leaves the fingerprint in the index, on
    an entry with that URL, and has called save at most once. *)
Lemma upload_image_indexes
      (name : string) (image_data : bytes) (file_name : string)
      (s s' : State) (out : Outcome) (evs : list Event) (link : string) :
  upload_image name image_data file_name s = (out, s', evs) ->
  outcome_url out = Some link ->
  (exists e, Mongo.find_one (Mongo.by_hash (md5_hexdigest image_data))
                            (image_hashes s') = Some e
             /\ url e = link)
  /\ (count_saves evs <= 1)%nat.
Proof.
  rewrite upload_image_run. cbv zeta.
  destruct (negb _).
  { intros [= <- <- <-]. discriminate. }
  destruct (Mongo.find_one _ (image_hashes s)) as [e|] eqn:F.
  { intros [= <- <- <-] [= <-]. split; [|unfold count_saves; simpl; lia].
    exists e. now split. }
  destruct (reformat image_data 85) as [c|].
  2:{ intros [= <- <- <-]. discriminate. }
  destruct (backend_save _ _ c (world s)) as [[d|l] w].
  { intros [= <- <- <-]. discriminate. }
  intros [= <- <- <-] [= <-]. split; [|unfold count_saves; simpl; lia].
  simpl. eexists. split.
  - apply MongoFacts.find_one_insert_one; [exact F|].
    unfold Mongo.by_hash. simpl. apply String.eqb_refl.
  - reflexivity.
Qed.

(** C2: after an upload that reported a URL, by anyone, the index holds the
    fingerprint on an entry with that URL, and an upload of the same bytes
    under an accepted file name is resolved from it. The second upload
    computes the fingerprint and nothing else (no normalization, no save),
    so that the two calls together have saved at most once; it returns the
    duplicate outcome with the URL of the first call; it leaves the index
    and the world as they are; its one write is the [$addToSet] of the
    record with that URL on the document of the caller. For a caller who has
    an account, the ledger afterwards is the old one when it held the record
    (the [users] collection is then untouched) and the old one followed by
    the record otherwise. *)
Theorem upload_image_dedup
        (name1 name2 : string) (image_data : bytes)
        (file_name1 file_name2 : string) (s s1 s2 : State)
        (out1 out2 : Outcome) (evs1 evs2 : list Event) (link : string) :
  upload_image name1 image_data file_name1 s = (out1, s1, evs1) ->
  outcome_url out1 = Some link ->
  In (file_ext file_name2) accepted_extensions ->
  upload_image name2 image_data file_name2 s1 = (out2, s2, evs2) ->
  (exists e,
      Mongo.find_one (Mongo.by_hash (md5_hexdigest image_data)) (image_hashes s1)
      = Some e
      /\ url e = link)
  /\ out2 = Duplicate link
  /\ evs2 = [EvHash image_data]
  /\ (count_saves (evs1 ++ evs2) <= 1)%nat
  /\ image_hashes s2 = image_hashes s1
  /\ world s2 = world s1
  /\ users s2 = Mongo.update_one (Mongo.by_username name2)
                  (Mongo.addToSet_uploads (record_for image_data link))
                  (users s1)
  /\ (forall account,
         Mongo.find_one (Mongo.by_username name2) (users s1) = Some account ->
         ledger name2 s2
         = (if existsb (UploadRecord_eqb (record_for image_data link))
                       (ledger name2 s1)
            then ledger name2 s1
            else ledger name2 s1 ++ [record_for image_data link])
         /\ In (record_for image_data link) (ledger name2 s2)
         /\ (In (record_for image_data link) (ledger name2 s1) ->
             users s2 = users s1)).
Proof.
  intros H1 Hl Hext H2.
  destruct (upload_image_indexes _ _ _ _ _ _ _ _ H1 Hl) as ((e & He & <-) & Hc).
  rewrite upload_image_run in H2. cbv zeta in H2.
  apply accepted_iff in Hext. rewrite Hext, He in H2. simpl in H2.
  injection H2 as <- <- <-.
  split; [exists e; now split|].
  split; [reflexivity|]. split; [reflexivity|].
  split.
  { unfold count_saves in *. rewrite filter_app, length_app. simpl. lia. }
  split; [reflexivity|]. split; [reflexivity|]. split; [reflexivity|].
  intros account Ha.
  match goal with
  | |- ledger name2 ?st = _ /\ _ => set (s2 := st)
  end.
  assert (El : ledger name2 s2
               = if existsb (UploadRecord_eqb (record_for image_data (url e)))
                            (ledger name2 s1)
                 then ledger name2 s1
                 else ledger name2 s1 ++ [record_for image_data (url e)]).
  { apply (ledger_after_addToSet name2 _ s1 s2 account Ha). reflexivity. }
  split; [exact El|]. split.
  - rewrite El.
    destruct (existsb _ (ledger name2 s1)) eqn:X.
    + now apply existsb_UploadRecord.
    + apply in_or_app. right. now left.
  - intros Hin. unfold ledger in Hin. rewrite Ha in Hin.
    destruct (uploads account) as [l|] eqn:U; [|destruct Hin].
    apply (MongoFacts.update_one_fixed _ _ _ account); [exact Ha|].
    now apply (MongoFacts.addToSet_present _ _ l).
Qed.

End Uploads.

(** ** Cleanup of the ledger *)

Section Cleanup.
Context {SV : Services}.

(** The three ways one record goes through the loop. *)
Lemma cleanup_loop_kept img rest valid s w :
  requests_get (img_url img) (world s) = (HTTP 200, w) ->
  cleanup_loop (img :: rest) valid s =
  let '(v, s', evs) := cleanup_loop rest (valid ++ [img]) (with_world s w) in
  (v, s', EvGet (img_url img) (HTTP 200) :: evs).
Proof.
  intros H. simpl. unfold bind at 1. unfold get. rewrite H. reflexivity.
Qed.

Lemma cleanup_loop_dropped img rest valid s w status_code :
  requests_get (img_url img) (world s) = (HTTP status_code, w) ->
  status_code <> 200 ->
  cleanup_loop (img :: rest) valid s =
  let '(v, s', evs) :=
    cleanup_loop rest valid
      {| users := users s;
         image_hashes := Mongo.delete_one (Mongo.by_hash (img_hash img))
                                          (image_hashes s);
         world := w |} in
  (v, s', EvGet (img_url img) (HTTP status_code) :: evs).
Proof.
  intros H Hs. simpl. unfold bind at 1. unfold get. rewrite H.
  apply Z.eqb_neq in Hs. rewrite Hs.
  unfold bind, hashes_delete_one. simpl.
  destruct (cleanup_loop rest valid _) as [[v s'] evs]. reflexivity.
Qed.

Lemma cleanup_loop_raised img rest valid s w :
  requests_get (img_url img) (world s) = (RequestException, w) ->
  cleanup_loop (img :: rest) valid s =
  let '(v, s', evs) := cleanup_loop rest valid (with_world s w) in
  (v, s', EvGet (img_url img) RequestException :: evs).
Proof.
  intros H. simpl. unfold bind at 1. unfold get. rewrite H. reflexivity.
Qed.

(** The loop never writes to [users]. *)
Lemma cleanup_loop_users imgs :
  forall valid s v s' evs,
    cleanup_loop imgs valid s = (v, s', evs) -> users s' = users s.
Proof.
  induction imgs as [|img rest IH]; intros valid s v s' evs.
  - intros [= <- <- <-]. reflexivity.
  - destruct (requests_get (img_url img) (world s)) as [[|code] w] eqn:G.
    + rewrite (cleanup_loop_raised _ _ _ _ _ G).
      destruct (cleanup_loop rest valid _) as [[v0 s0] e0] eqn:L.
      intros [= <- <- <-]. now apply IH in L.
    + destruct (Z.eq_dec code 200) as [-> | Hc].
      * rewrite (cleanup_loop_kept _ _ _ _ _ G).
        destruct (cleanup_loop rest _ _) as [[v0 s0] e0] eqn:L.
        intros [= <- <- <-]. now apply IH in L.
      * rewrite (cleanup_loop_dropped _ _ _ _ _ _ G Hc).
        destruct (cleanup_loop rest _ _) as [[v0 s0] e0] eqn:L.
        intros [= <- <- <-]. now apply IH in L.
Qed.



(** One run of [cleanup_invalid_images] on an account with a ledger. *)
Lemma cleanup_invalid_images_run name s u imgs v s' evs :
  Mongo.find_one (Mongo.by_username name) (users s) = Some u ->
  uploads u = Some imgs ->
  cleanup_loop imgs [] s = (v, s', evs) ->
  cleanup_invalid_images name s =
  (tt, {| users := Mongo.update_one (Mongo.by_username name)
                                    (Mongo.set_uploads v) (users s);
          image_hashes := image_hashes s';
          world := world s' |}, evs).
Proof.
  intros Hu Hl L. unfold cleanup_invalid_images, bind, users_find_one.
  rewrite Hu, Hl, L. unfold users_update_one.
  rewrite (cleanup_loop_users _ _ _ _ _ _ L), app_nil_r. reflexivity.
Qed.

Lemma cleanup_invalid_images_no_ledger name s :
  (Mongo.find_one (Mongo.by_username name) (users s) = None
   \/ exists u, Mongo.find_one (Mongo.by_username name) (users s) = Some u
                /\ uploads u = None) ->
  cleanup_invalid_images name s = (tt, s, []).
Proof.
  unfold cleanup_invalid_images, bind, users_find_one, ret.
  intros [-> | (u & -> & ->)]; reflexivity.
Qed.


End Cleanup.

(** ** The program on the small instance *)

Module Scenarios.
Import Demo.

(** Scenario A: a first upload is stored and indexed. *)
Example first_upload_succeeds :
  let '(out, s', evs) :=
    upload_image (SV := sunny) "alice" small_image "cat.png" (fresh true []) in
  out = Success small_url
  /\ ledger "alice" s' = [record_for (SV := sunny) small_image small_url]
  /\ List.length (image_hashes s') = 1%nat
  /\ count_saves evs = 1%nat.
Proof. vm_compute. repeat split. Qed.

(** Scenario D: a URL that answers 404 loses its ledger entry and its
    index entry. *)
Example cleanup_not_found_deletes_index_entry :
  let '(_, s', evs) :=
    cleanup_invalid_images (SV := answering "a" (HTTP 404)) "alice"
                           (holding true _ ["a"; "b"]%string) in
  ledger "alice" s' = [record_of "b"]
  /\ image_hashes s' = [entry_of "b"].
Proof. vm_compute. repeat split. Qed.

(** C3: a request that raises. The ledger of alice holds one record, whose
    URL cannot be fetched: the cleanup drops the record, and the index
    entry of its fingerprint is still there afterwards, where the claim
    has it deleted as for a status other than 200. *)
Theorem cleanup_request_exception_keeps_index_entry :
  let s := holding true [(img_url (record_of "a"), RequestException)] ["a"%string] in
  let '(_, s', evs) :=
    cleanup_invalid_images (SV := answering "a" RequestException) "alice" s in
  evs = [EvGet (img_url (record_of "a")) RequestException]
  /\ ledger "alice" s = [record_of "a"]
  /\ ledger "alice" s' = []
  /\ Mongo.find_one (Mongo.by_hash "a") (image_hashes s')
     = Some (entry_of "a").
Proof. vm_compute. repeat split. Qed.

(** The storage services are down: the upload fails and nothing is
    written. *)
Lemma upload_image_save_raises_witness :
  let s := fresh false [] in
  let run := upload_image (SV := stormy) "alice" small_image "cat.png" s in
  fst (fst run) = UploadFailed "service unavailable"
  /\ image_hashes (snd (fst run)) = image_hashes s
  /\ users (snd (fst run)) = users s.
Proof.
  cbv zeta.
  destruct (upload_image (SV := stormy) "alice" small_image "cat.png"
                         (fresh false [])) as [[out s'] evs] eqn:E.
  assert (Hin : In (EvSave FirebaseStorage "141e010203__compressed.jpg"
                           [x01; x02; x03] (inl "service unavailable"%string))
                   evs).
  { vm_compute in E. injection E as _ _ <-. right. right. left. reflexivity. }
  destruct (upload_image_save_raises (SV := stormy) _ _ _ _ _ _ _ _ _ _ _ E Hin)
    as (H1 & H2 & H3 & _).
  cbn [fst snd]. repeat split; assumption.
Defined.

(** Alice uploads an image, bob uploads the same bytes. *)
Lemma upload_image_dedup_witness :
  let s := fresh true [] in
  let run1 := upload_image (SV := sunny) "alice" small_image "cat.png" s in
  let run2 := upload_image (SV := sunny) "bob" small_image "copy.JPG"
                           (snd (fst run1)) in
  fst (fst run2) = Duplicate small_url
  /\ snd run2 = [EvHash small_image]
  /\ (count_saves (snd run1 ++ snd run2) <= 1)%nat
  /\ In (record_for (SV := sunny) small_image small_url)
        (ledger "bob" (snd (fst run2))).
Proof.
  cbv zeta.
  destruct (upload_image (SV := sunny) "alice" small_image "cat.png"
                         (fresh true [])) as [[out1 s1] evs1] eqn:E1.
  cbn [fst snd].
  destruct (upload_image (SV := sunny) "bob" small_image "copy.JPG" s1)
    as [[out2 s2] evs2] eqn:E2.
  assert (Hl : outcome_url out1 = Some small_url).
  { vm_compute in E1. injection E1 as <- _ _. reflexivity. }
  assert (Hx : In (file_ext "copy.JPG") accepted_extensions).
  { vm_compute. left. reflexivity. }
  assert (Hb : Mongo.find_one (Mongo.by_username "bob") (users s1) = Some bob).
  { vm_compute in E1. injection E1 as _ <- _. reflexivity. }
  destruct (upload_image_dedup (SV := sunny) _ _ _ _ _ _ _ _ _ _ _ _ _
                               E1 Hl Hx E2)
    as (_ & H1 & H2 & H3 & _ & _ & _ & H5).
  destruct (H5 bob Hb) as (_ & H6 & _).
  cbn [fst snd]. repeat split; assumption.
Defined.

(** A 5000 x 5000 image (scenario C). *)
Lemma upload_image_processing_failed_witness :
  upload_image (SV := sunny) "alice" huge_image "big.jpg" (fresh true [])
  = (ProcessingFailed, fresh true [],
     [EvHash huge_image; EvCompress huge_image 85]).
Proof.
  apply (upload_image_processing_failed (SV := sunny)).
  - vm_compute. left. reflexivity.
  - reflexivity.
  - right. eexists. split; [reflexivity|]. right. vm_compute. reflexivity.
Defined.

(** A text file is rejected, its bytes hashed and nothing else. *)
Lemma upload_image_extension_gate_witness :
  upload_image (SV := sunny) "alice" small_image "x.txt" (fresh true [])
  = (InvalidFormat, fresh true [], [EvHash small_image]).
Proof.
  apply (upload_image_extension_gate (SV := sunny)).
  vm_compute. intros [H|[H|[H|[H|[H|[]]]]]]; discriminate H.
Defined.

(** C4 as it is stated fails on [x.txt]: the extension is not an accepted
    one, and the run of [upload_image] that rejects the file has computed
    the fingerprint of its bytes, so that the rejection does not come
    before any hashing. *)
Lemma upload_image_hashes_before_gate :
  ~ In (file_ext "x.txt") accepted_extensions
  /\ (let '(out, s', evs) :=
        upload_image (SV := sunny) "alice" small_image "x.txt" (fresh true []) in
      out = InvalidFormat /\ existsb is_hash evs = true).
Proof.
  split.
  - vm_compute. intros [H|[H|[H|[H|[H|[]]]]]]; discriminate H.
  - vm_compute. split; reflexivity.
Qed.

(** A wrong password for alice. *)
Lemma authenticate_user_wrong_password_witness :
  authenticate_user (SV := sunny) "alice" "rabbit" (fresh true [])
  = (false, fresh true [], []).
Proof.
  apply (authenticate_user_wrong_password (SV := sunny) _ _ _ alice).
  - reflexivity.
  - vm_compute. intros H. discriminate H.
Defined.

(** A username with a space in it. *)
Lemma authenticate_user_rejects_non_alnum_witness :
  authenticate_user (SV := sunny) "bob smith" "secret" (fresh true [])
  = (false, fresh true [], []).
Proof.
  apply (authenticate_user_rejects_non_alnum (SV := sunny)).
  right. exists " "%char. split; [|reflexivity].
  simpl. right. right. right. left. reflexivity.
Defined.

(** A new alphanumeric username is registered. *)
Lemma authenticate_user_registers_witness :
  exists s',
    authenticate_user (SV := sunny) "carol" "secret" (fresh true [])
    = (true, s', [])
    /\ users s' = [alice; bob;
                   {| username := "carol";
                      password_hash := hash_password (SV := sunny) "secret";
                      uploads := Some [] |}].
Proof.
  destruct (authenticate_user_registers (SV := sunny) "carol" "secret"
              (fresh true []) eq_refl eq_refl) as (s' & H1 & H2 & _).
  exists s'. split; [exact H1 | exact H2].
Defined.

(** C7 as it is stated fails on the username [bob smith]: no document of
    [users] has that name, and the call answers [false] and creates no
    account. *)
Lemma authenticate_user_does_not_register_non_alnum :
  Mongo.find_one (Mongo.by_username "bob smith") (users (fresh true [])) = None
  /\ (let '(ok, s', _) :=
        authenticate_user (SV := sunny) "bob smith" "secret" (fresh true []) in
      ok = false
      /\ users s' = users (fresh true [])
      /\ Mongo.find_one (Mongo.by_username "bob smith") (users s') = None).
Proof. vm_compute. repeat split. Qed.

(** Payloads of 140 KiB and of one byte more. *)
Lemma choose_storage_backend_threshold_witness :
  choose_storage_backend (repeat x00 (Z.to_nat 143360)) = FirebaseStorage
  /\ choose_storage_backend (repeat x00 (Z.to_nat 143361)) = CloudinaryStorage.
Proof.
  destruct choose_storage_backend_threshold as (_ & Hle & Hgt).
  split; [apply Hle | apply Hgt]; rewrite repeat_length; vm_compute; reflexivity.
Defined.


End Scenarios.

(** * Further properties *)

(** ** More facts about the collections *)

Module CollectionFacts.
Import Mongo.

Section Generic.
Context {D : Type}.

(** An update through one filter does not move what another filter finds,
    when the two filters never accept the same document. *)
Lemma find_one_update_one_other (matches matches' : D -> bool)
      (update : D -> D) (coll : list D) :
  (forall d, matches d = true -> matches' d = false) ->
  (forall d, matches' (update d) = matches' d) ->
  find_one matches' (update_one matches update coll) = find_one matches' coll.
Proof.
  intros Hx Hp. unfold find_one.
  induction coll as [|d rest IH]; simpl; [reflexivity|].
  destruct (matches d) eqn:E; simpl.
  - now rewrite Hp, (Hx d E).
  - destruct (matches' d); [reflexivity | exact IH].
Qed.

Lemma map_update_one {B} (f : D -> B) (matches : D -> bool)
      (update : D -> D) (coll : list D) :
  (forall d, f (update d) = f d) ->
  map f (update_one matches update coll) = map f coll.
Proof.
  intros Hf. induction coll as [|d rest IH]; simpl; [reflexivity|].
  destruct (matches d); simpl; [now rewrite Hf | now rewrite IH].
Qed.

Lemma delete_one_incl (matches : D -> bool) (coll : list D) :
  incl (delete_one matches coll) coll.
Proof.
  induction coll as [|d rest IH]; simpl; [apply incl_refl|].
  destruct (matches d).
  - apply incl_tl, incl_refl.
  - intros x [-> | Hx]; [now left | right; now apply IH].
Qed.

Lemma delete_one_keeps (matches : D -> bool) (coll : list D) (d : D) :
  In d coll -> matches d = false -> In d (delete_one matches coll).
Proof.
  induction coll as [|x rest IH]; simpl; [tauto|].
  intros [-> | Hd] Hm.
  - rewrite Hm. now left.
  - destruct (matches x); [assumption | right; now apply IH].
Qed.

Lemma delete_one_NoDup {B} (f : D -> B) (matches : D -> bool) (coll : list D) :
  NoDup (map f coll) -> NoDup (map f (delete_one matches coll)).
Proof.
  induction coll as [|d rest IH]; simpl; [trivial|].
  intros H. inversion H as [|? ? Hn Hr]; subst.
  destruct (matches d); [assumption|].
  simpl. constructor; [|now apply IH].
  intros Hin. apply Hn. apply in_map_iff in Hin as (x & <- & Hx).
  apply in_map. now apply (delete_one_incl matches rest).
Qed.

Lemma find_one_none_iff (matches : D -> bool) (coll : list D) :
  find_one matches coll = None <-> forall d, In d coll -> matches d = false.
Proof.
  unfold find_one. split.
  - intros H d Hd. now apply (find_none _ _ H).
  - intros H. induction coll as [|x rest IH]; simpl; [reflexivity|].
    rewrite (H x (or_introl eq_refl)). apply IH.
    intros d Hd. apply H. now right.
Qed.

Lemma find_one_delete_one_none (matches matches' : D -> bool) (coll : list D) :
  find_one matches coll = None ->
  find_one matches (delete_one matches' coll) = None.
Proof.
  rewrite !find_one_none_iff. intros H d Hd.
  apply H. now apply (delete_one_incl matches' coll).
Qed.

End Generic.

Lemma by_hash_none_not_in (h : string) (index : list HashEntry) :
  find_one (by_hash h) index = None <-> ~ In h (map hash index).
Proof.
  rewrite find_one_none_iff. unfold by_hash. split.
  - intros H Hin. apply in_map_iff in Hin as (e & <- & He).
    specialize (H e He). now rewrite String.eqb_refl in H.
  - intros H e He. apply String.eqb_neq. intros <-.
    apply H. now apply in_map.
Qed.

Lemma by_username_none_not_in (name : string) (accounts : list UserAccount) :
  find_one (by_username name) accounts = None
  <-> ~ In name (map username accounts).
Proof.
  rewrite find_one_none_iff. unfold by_username. split.
  - intros H Hin. apply in_map_iff in Hin as (e & <- & He).
    specialize (H e He). now rewrite String.eqb_refl in H.
  - intros H e He. apply String.eqb_neq. intros <-.
    apply H. now apply in_map.
Qed.

Lemma NoDup_snoc {A} (l : list A) (x : A) :
  NoDup l -> ~ In x l -> NoDup (l ++ [x]).
Proof.
  intros Hl Hx. apply NoDup_app; [assumption | repeat constructor; intros [] | ].
  intros a Ha [<- | []]. contradiction.
Qed.

(** With one entry per fingerprint, deleting by a fingerprint leaves no entry
    for it. *)
Lemma delete_by_hash_none (h : string) (index : list HashEntry) :
  NoDup (map hash index) ->
  find_one (by_hash h) (delete_one (by_hash h) index) = None.
Proof.
  induction index as [|e rest IH]; simpl; [reflexivity|].
  intros H. inversion H as [|? ? Hn Hr]; subst.
  destruct (by_hash h e) eqn:E.
  - apply by_hash_none_not_in. unfold by_hash in E.
    apply String.eqb_eq in E. now subst.
  - unfold find_one. simpl. rewrite E. now apply IH.
Qed.

Lemma username_set_uploads v u : username (set_uploads v u) = username u.
Proof. reflexivity. Qed.
Lemma username_addToSet r u : username (addToSet_uploads r u) = username u.
Proof. reflexivity. Qed.
Lemma password_set_uploads v u : password_hash (set_uploads v u) = password_hash u.
Proof. reflexivity. Qed.
Lemma password_addToSet r u :
  password_hash (addToSet_uploads r u) = password_hash u.
Proof. reflexivity. Qed.

Lemma by_username_other (name who : string) :
  who <> name ->
  forall d, by_username name d = true -> by_username who d = false.
Proof.
  unfold by_username. intros Hne d H. apply String.eqb_eq in H.
  apply String.eqb_neq. congruence.
Qed.

End CollectionFacts.

(** ** Authentication, further *)

Section AuthenticationFurther.
Context {SV : Services}.

(** One run of [authenticate_user], path by path. *)
Lemma authenticate_user_run (name password : string) (s : State) :
  authenticate_user name password s =
  if negb (PyStr.isalnum name) then (false, s, [])
  else
    match Mongo.find_one (Mongo.by_username name) (users s) with
    | Some u => (String.eqb (hash_password password) (password_hash u), s, [])
    | None =>
        (true,
         {| users := Mongo.insert_one (new_account name password) (users s);
            image_hashes := image_hashes s;
            world := world s |}, [])
    end.
Proof.
  unfold authenticate_user, bind, ret, users_find_one, users_insert_one.
  destruct (negb (PyStr.isalnum name)); [reflexivity|].
  destruct (Mongo.find_one _ (users s)); reflexivity.
Qed.

(** X1: The call answers [true] exactly when the username is alphanumeric and
    either no account has it (the account is then created) or the hash of
    the password is the stored one. *)
Theorem authenticate_user_true_iff (name password : string) (s : State) :
  fst (fst (authenticate_user name password s)) = true
  <-> PyStr.isalnum name = true
      /\ (Mongo.find_one (Mongo.by_username name) (users s) = None
          \/ exists u, Mongo.find_one (Mongo.by_username name) (users s) = Some u
                       /\ hash_password password = password_hash u).
Proof.
  rewrite authenticate_user_run.
  destruct (PyStr.isalnum name); simpl.
  2:{ split; [discriminate | intros [H _]; discriminate H]. }
  destruct (Mongo.find_one _ (users s)) as [u|]; simpl.
  - rewrite String.eqb_eq. split.
    + intros H. split; [reflexivity|]. right. exists u. now split.
    + intros [_ [H | (u' & [= <-] & H)]]; [discriminate | exact H].
  - split; [|reflexivity]. intros _. split; [reflexivity | now left].
Qed.

(** X2: The call never changes or removes an account, never touches the index
    or the world, and makes no call outside: the [users] collection is the
    old one, followed by at most the one new account, whose username is
    alphanumeric and whose ledger is empty. *)
Theorem authenticate_user_only_appends (name password : string) (s : State) :
  let '(ok, s', evs) := authenticate_user name password s in
  (users s' = users s
   \/ (users s' = users s ++ [new_account name password]
       /\ ok = true /\ PyStr.isalnum name = true
       /\ Mongo.find_one (Mongo.by_username name) (users s) = None))
  /\ image_hashes s' = image_hashes s
  /\ world s' = world s
  /\ evs = [].
Proof.
  rewrite authenticate_user_run.
  destruct (PyStr.isalnum name) eqn:A; simpl.
  2:{ repeat split. now left. }
  destruct (Mongo.find_one _ (users s)) as [u|] eqn:F; simpl.
  - repeat split. now left.
  - repeat split. right. repeat split.
Qed.

(** X3: When no two accounts share a username, none do after the call. *)
Theorem authenticate_user_unique_usernames
        (name password : string) (s : State) :
  NoDup (map username (users s)) ->
  NoDup (map username (users (snd (fst (authenticate_user name password s))))).
Proof.
  intros H. rewrite authenticate_user_run.
  destruct (negb (PyStr.isalnum name)); [exact H|].
  destruct (Mongo.find_one _ (users s)) as [u|] eqn:F; [exact H|].
  simpl. unfold Mongo.insert_one. rewrite map_app. simpl.
  apply CollectionFacts.NoDup_snoc; [exact H|].
  now apply CollectionFacts.by_username_none_not_in.
Qed.

(** X4: Registration, then login: once a call has created the account, the same
    password is accepted and a password with another hash is refused, both
    without any change of the state. *)
Theorem register_then_login (name password : string) (s : State) :
  PyStr.isalnum name = true ->
  Mongo.find_one (Mongo.by_username name) (users s) = None ->
  let s1 := snd (fst (authenticate_user name password s)) in
  authenticate_user name password s1 = (true, s1, [])
  /\ forall other,
       hash_password other <> hash_password password ->
       authenticate_user name other s1 = (false, s1, []).
Proof.
  intros A F s1.
  assert (F1 : Mongo.find_one (Mongo.by_username name) (users s1)
               = Some (new_account name password)).
  { unfold s1. rewrite authenticate_user_run, A, F. simpl.
    apply MongoFacts.find_one_insert_one; [exact F|].
    unfold Mongo.by_username. simpl. apply String.eqb_refl. }
  split.
  - rewrite authenticate_user_run, A, F1. simpl.
    now rewrite String.eqb_refl.
  - intros other Hne. rewrite authenticate_user_run, A, F1. simpl.
    apply String.eqb_neq in Hne. now rewrite Hne.
Qed.

End AuthenticationFurther.

(** ** Uploads, further *)

Section UploadsFurther.
Context {SV : Services}.

(** What a run does to the two collections, by its outcome. *)
Lemma upload_image_effect (name : string) (image_data : bytes)
      (file_name : string) (s : State) :
  let '(out, s', _) := upload_image name image_data file_name s in
  match out with
  | Success link =>
      Mongo.find_one (Mongo.by_hash (md5_hexdigest image_data)) (image_hashes s)
      = None
      /\ image_hashes s' = image_hashes s ++ [new_entry name image_data link]
      /\ users s' = Mongo.update_one (Mongo.by_username name)
                      (Mongo.addToSet_uploads (record_for image_data link))
                      (users s)
  | Duplicate link =>
      image_hashes s' = image_hashes s
      /\ users s' = Mongo.update_one (Mongo.by_username name)
                      (Mongo.addToSet_uploads (record_for image_data link))
                      (users s)
  | _ => image_hashes s' = image_hashes s /\ users s' = users s
  end.
Proof.
  rewrite upload_image_run. cbv zeta.
  destruct (negb _); [now split|].
  destruct (Mongo.find_one _ (image_hashes s)) as [e|] eqn:F; [now split|].
  destruct (reformat image_data 85) as [c|]; [|now split].
  destruct (backend_save _ _ c (world s)) as [[d|l] w]; [now split|].
  simpl. repeat split.
Qed.

Lemma ledger_other_after_update (name who : string)
      (update : UserAccount -> UserAccount) (s s' : State) :
  who <> name ->
  (forall d, username (update d) = username d) ->
  users s' = Mongo.update_one (Mongo.by_username name) update (users s) ->
  Mongo.find_one (Mongo.by_username who) (users s')
  = Mongo.find_one (Mongo.by_username who) (users s).
Proof.
  intros Hne Hn ->.
  apply CollectionFacts.find_one_update_one_other.
  - now apply CollectionFacts.by_username_other.
  - intros d. unfold Mongo.by_username. now rewrite Hn.
Qed.

(** X5: The index after an upload is the old one, entries in place,
    followed by at most one new entry, which has the fingerprint, the
    canonical name and the name of the caller. The entry is there, with the
    URL of the outcome, when the outcome is a success; the index is the old
    one when the outcome is an invalid format, a duplicate or a processing
    failure. An upload failure alone does not tell: the handler that
    reports it also covers the two database calls that follow the save. *)
Theorem upload_image_index_only_appends
        (name : string) (image_data : bytes) (file_name : string) (s : State) :
  let '(out, s', _) := upload_image name image_data file_name s in
  match out with
  | Success link =>
      image_hashes s' = image_hashes s ++ [new_entry name image_data link]
  | UploadFailed _ =>
      image_hashes s' = image_hashes s
      \/ exists link,
           image_hashes s' = image_hashes s ++ [new_entry name image_data link]
  | InvalidFormat | Duplicate _ | ProcessingFailed =>
      image_hashes s' = image_hashes s
  end.
Proof.
  pose proof (upload_image_effect name image_data file_name s) as H.
  destruct (upload_image name image_data file_name s) as [[out s'] evs].
  destruct out; tauto.
Qed.

(** X6: When the index has one entry per fingerprint, it still has after an
    upload. *)
Theorem upload_image_index_no_duplicates
        (name : string) (image_data : bytes) (file_name : string) (s : State) :
  NoDup (map hash (image_hashes s)) ->
  NoDup (map hash (image_hashes
                     (snd (fst (upload_image name image_data file_name s))))).
Proof.
  intros Hs.
  pose proof (upload_image_effect name image_data file_name s) as H.
  destruct (upload_image name image_data file_name s) as [[out s'] evs].
  simpl. destruct out; try (destruct H as [-> _]; exact Hs).
  destruct H as (F & -> & _). rewrite map_app. simpl.
  apply CollectionFacts.NoDup_snoc; [exact Hs|].
  now apply CollectionFacts.by_hash_none_not_in.
Qed.

(** X7: An upload creates no account, removes none and changes no username and
    no password hash. *)
Theorem upload_image_keeps_credentials
        (name : string) (image_data : bytes) (file_name : string) (s : State) :
  let s' := snd (fst (upload_image name image_data file_name s)) in
  map username (users s') = map username (users s)
  /\ map password_hash (users s') = map password_hash (users s).
Proof.
  pose proof (upload_image_effect name image_data file_name s) as H.
  destruct (upload_image name image_data file_name s) as [[out s'] evs].
  simpl.
  assert (E : users s' = users s
              \/ exists r, users s' = Mongo.update_one (Mongo.by_username name)
                                        (Mongo.addToSet_uploads r) (users s)).
  { destruct out; try (left; tauto); right; eexists; apply H. }
  destruct E as [-> | (r & ->)]; [now split|].
  split; apply CollectionFacts.map_update_one; reflexivity.
Qed.

(** X8: An upload leaves the account document of every other username as it
    is, and so its ledger. *)
Theorem upload_image_other_accounts
        (name who : string) (image_data : bytes) (file_name : string)
        (s : State) :
  who <> name ->
  let s' := snd (fst (upload_image name image_data file_name s)) in
  Mongo.find_one (Mongo.by_username who) (users s')
  = Mongo.find_one (Mongo.by_username who) (users s)
  /\ ledger who s' = ledger who s.
Proof.
  intros Hne.
  pose proof (upload_image_effect name image_data file_name s) as H.
  destruct (upload_image name image_data file_name s) as [[out s'] evs].
  simpl.
  assert (E : Mongo.find_one (Mongo.by_username who) (users s')
              = Mongo.find_one (Mongo.by_username who) (users s)).
  { destruct out;
      try (destruct H as [_ ->]; reflexivity);
      [destruct H as [_ H] | destruct H as (_ & _ & H)];
      refine (ledger_other_after_update name who _ s s' Hne _ H);
      reflexivity. }
  split; [exact E|]. unfold ledger. now rewrite E.
Qed.

(** X9: The ledger of a caller who has an account: an upload that reports a URL
    appends the record of the image with that URL unless the ledger holds
    it; any other upload leaves the [users] collection as it is. No record
    is ever removed. *)
Theorem upload_image_ledger_grows
        (name : string) (image_data : bytes) (file_name : string)
        (s : State) (account : UserAccount) :
  Mongo.find_one (Mongo.by_username name) (users s) = Some account ->
  let '(out, s', _) := upload_image name image_data file_name s in
  match outcome_url out with
  | Some link =>
      ledger name s'
      = if existsb (UploadRecord_eqb (record_for image_data link)) (ledger name s)
        then ledger name s
        else ledger name s ++ [record_for image_data link]
  | None => users s' = users s
  end.
Proof.
  intros Ha.
  pose proof (upload_image_effect name image_data file_name s) as H.
  destruct (upload_image name image_data file_name s) as [[out s'] evs].
  destruct out; simpl; try tauto.
  - apply (ledger_after_addToSet _ _ _ _ account Ha). tauto.
  - apply (ledger_after_addToSet _ _ _ _ account Ha). tauto.
Qed.

(** X10: A caller without an account document: whatever the outcome, success
    included, the [users] collection is unchanged ([update_one] does not
    upsert), and the gallery of that name is empty afterwards. *)
Theorem upload_image_without_account
        (name : string) (image_data : bytes) (file_name : string) (s : State) :
  Mongo.find_one (Mongo.by_username name) (users s) = None ->
  let s' := snd (fst (upload_image name image_data file_name s)) in
  users s' = users s
  /\ get_user_images name s' = ([], s', []).
Proof.
  intros Hn.
  pose proof (upload_image_effect name image_data file_name s) as H.
  destruct (upload_image name image_data file_name s) as [[out s'] evs].
  simpl.
  assert (E : users s' = users s).
  { destruct out; try tauto.
    - destruct H as [_ ->]. now apply MongoFacts.update_one_none.
    - destruct H as (_ & _ & ->). now apply MongoFacts.update_one_none. }
  split; [exact E|].
  unfold get_user_images, bind, users_find_one, ret. now rewrite E, Hn.
Qed.

(** X11: What is stored: a save made by an upload has the canonical name of the
    fingerprint, carries the normalization of the image at quality 85 (never
    the bytes as uploaded) and goes to the backend of its size, Firebase
    exactly up to 143360 bytes; and an upload makes one save at most, after
    having hashed the bytes first. *)
Theorem upload_image_saves_normalized_only
        (name : string) (image_data : bytes) (file_name : string) (s : State)
        (b : StorageBackend) (n : string) (c : bytes) (r : string + string) :
  let evs := snd (upload_image name image_data file_name s) in
  In (EvSave b n c r) evs ->
  n = final_name_of image_data
  /\ reformat image_data 85 = Some c
  /\ b = choose_storage_backend c
  /\ (b = FirebaseStorage <-> Z.of_nat (List.length c) <= 143360)
  /\ count_saves evs = 1%nat
  /\ hd_error evs = Some (EvHash image_data).
Proof.
  cbv zeta. rewrite upload_image_run. cbv zeta.
  assert (T : forall d : bytes,
             choose_storage_backend d = FirebaseStorage
             <-> Z.of_nat (List.length d) <= 143360).
  { intros d. unfold choose_storage_backend.
    destruct (Z.leb_spec (Z.of_nat (List.length d)) (140 * 1024)); split;
      intros; try reflexivity; try lia; discriminate. }
  destruct (negb _).
  { intros [H|[]]. discriminate H. }
  destruct (Mongo.find_one _ (image_hashes s)) as [e|].
  { intros [H|[]]. discriminate H. }
  destruct (reformat image_data 85) as [c'|].
  2:{ intros [H|[H|[]]]; discriminate H. }
  destruct (backend_save _ _ c' (world s)) as [[d|l] w]; simpl;
    intros [H|[H|[H|[]]]]; try discriminate H;
    injection H as <- <- <- <-; repeat split; try apply T; apply T.
Qed.

(** An upload makes at most one save, whatever happens. *)
Lemma upload_image_saves_at_most_once
      (name : string) (image_data : bytes) (file_name : string) (s : State) :
  (count_saves (snd (upload_image name image_data file_name s)) <= 1)%nat.
Proof.
  rewrite upload_image_run. cbv zeta. unfold count_saves.
  destruct (negb _); [simpl; lia|].
  destruct (Mongo.find_one _ (image_hashes s)); [simpl; lia|].
  destruct (reformat image_data 85) as [c|]; [|simpl; lia].
  destruct (backend_save _ _ c (world s)) as [[d|l] w]; simpl; lia.
Qed.

(** The gallery is the ledger, read without any effect. *)
Lemma get_user_images_run (name : string) (s : State) :
  get_user_images name s
  = (map (fun img => (img_filename img, img_url img)) (ledger name s), s, []).
Proof.
  unfold get_user_images, ledger, bind, users_find_one, ret.
  destruct (Mongo.find_one _ (users s)) as [u|]; [|reflexivity].
  destruct (uploads u); reflexivity.
Qed.

(** X12: Upload, then gallery: after an upload that reported a URL, made by a
    caller who has an account, [get_user_images] lists the canonical name of
    the image with that URL, and reading the gallery changes nothing. *)
Theorem upload_then_gallery
        (name : string) (image_data : bytes) (file_name : string)
        (s : State) (account : UserAccount) (link : string) :
  Mongo.find_one (Mongo.by_username name) (users s) = Some account ->
  let '(out, s', _) := upload_image name image_data file_name s in
  outcome_url out = Some link ->
  exists listing,
    get_user_images name s' = (listing, s', [])
    /\ In (final_name_of image_data, link) listing.
Proof.
  intros Ha.
  pose proof (upload_image_effect name image_data file_name s) as H.
  destruct (upload_image name image_data file_name s) as [[out s'] evs].
  intros Hl.
  assert (Hu : users s' = Mongo.update_one (Mongo.by_username name)
                            (Mongo.addToSet_uploads (record_for image_data link))
                            (users s)).
  { destruct out; try discriminate Hl; injection Hl as ->; tauto. }
  rewrite get_user_images_run. eexists. split; [reflexivity|].
  apply in_map_iff. exists (record_for image_data link). split; [reflexivity|].
  rewrite (ledger_after_addToSet name _ s s' account Ha Hu).
  destruct (existsb _ (ledger name s)) eqn:X.
  - now apply existsb_UploadRecord.
  - apply in_or_app. right. now left.
Qed.

(** X13: The ledgers keep their set semantics: a ledger without a repeated
    record has none after an upload, whoever uploads. *)
Theorem upload_image_ledger_no_duplicates
        (name who : string) (image_data : bytes) (file_name : string)
        (s : State) :
  NoDup (ledger who s) ->
  NoDup (ledger who (snd (fst (upload_image name image_data file_name s)))).
Proof.
  intros Hs.
  pose proof (upload_image_effect name image_data file_name s) as H.
  destruct (upload_image name image_data file_name s) as [[out s'] evs].
  simpl.
  assert (E : users s' = users s
              \/ exists r, users s' = Mongo.update_one (Mongo.by_username name)
                                        (Mongo.addToSet_uploads r) (users s)).
  { destruct out; try (left; tauto); right; eexists; apply H. }
  destruct E as [E | (r & E)]; [unfold ledger in *; now rewrite E|].
  destruct (String.eqb_spec who name) as [-> | Hne].
  - destruct (Mongo.find_one (Mongo.by_username name) (users s)) as [a|] eqn:Ha.
    + rewrite (ledger_after_addToSet name r s s' a Ha E).
      destruct (existsb (UploadRecord_eqb r) (ledger name s)) eqn:X; [exact Hs|].
      apply CollectionFacts.NoDup_snoc; [exact Hs|].
      intros Hin. apply existsb_UploadRecord in Hin. congruence.
    + rewrite MongoFacts.update_one_none in E by exact Ha.
      unfold ledger in *. now rewrite E.
  - pose proof (ledger_other_after_update name who (Mongo.addToSet_uploads r)
                  s s' Hne (fun d => eq_refl) E) as F.
    unfold ledger in *. now rewrite F.
Qed.

End UploadsFurther.

(** ** Normalization, further *)

Section NormalizationFurther.
Context {SV : Services}.

(** X14: The normalization gives bytes exactly when the image opens, has at most
    10,000,000 pixels (the bound itself passes), converts to RGB and encodes;
    the bytes are then the JPEG encoding at the quality asked for. *)
Theorem reformat_some_iff (image_data : bytes) (quality : Z) (out : bytes) :
  reformat image_data quality = Some out
  <-> exists img rgb,
        Image_open image_data = Some img
        /\ fst (Image_size img) * snd (Image_size img) <= 10000000
        /\ Image_convert_RGB img = Some rgb
        /\ Image_save_JPEG rgb quality = Some out.
Proof.
  unfold reformat. split.
  - destruct (Image_open image_data) as [img|]; [|discriminate].
    destruct (Z.gtb_spec (fst (Image_size img) * snd (Image_size img)) 10000000);
      [discriminate|].
    destruct (Image_convert_RGB img) as [rgb|] eqn:C; [|discriminate].
    intros Hj. exists img, rgb. repeat split; assumption.
  - intros (img & rgb & -> & Hs & -> & Hj).
    destruct (Z.gtb_spec (fst (Image_size img) * snd (Image_size img)) 10000000);
      [lia | exact Hj].
Qed.

End NormalizationFurther.

(** ** Cleanup, further *)

Section CleanupFurther.
Context {SV : Services}.

Lemma answered_cons p answers :
  (exists w, fst (requests_get (img_url (fst p)) w) = snd p) ->
  answered answers -> answered (p :: answers).
Proof. intros Hp Ha q [<- | Hq]; [exact Hp | now apply Ha]. Qed.

(** The loop, read off the answers it got. *)
Lemma cleanup_loop_answers imgs :
  forall valid s v s' evs,
    cleanup_loop imgs valid s = (v, s', evs) ->
    exists answers,
      map fst answers = imgs
      /\ answered answers
      /\ evs = requests_of answers
      /\ v = valid ++ kept_records answers
      /\ image_hashes s' = pruned_index answers (image_hashes s).
Proof.
  induction imgs as [|img rest IH]; intros valid s v s' evs.
  - intros [= <- <- <-]. exists []. simpl. rewrite app_nil_r.
    repeat split. intros p [].
  - destruct (requests_get (img_url img) (world s)) as [[|code] w] eqn:G.
    + rewrite (cleanup_loop_raised _ _ _ _ _ G).
      destruct (cleanup_loop rest valid _) as [[v0 s0] e0] eqn:L.
      intros [= <- <- <-].
      apply IH in L as (answers & Hm & Ha & -> & -> & Hi).
      exists ((img, RequestException) :: answers). simpl.
      rewrite Hm. repeat split; try assumption.
      apply answered_cons; [|exact Ha].
      exists (world s). simpl. now rewrite G.
    + destruct (Z.eq_dec code 200) as [-> | Hc].
      * rewrite (cleanup_loop_kept _ _ _ _ _ G).
        destruct (cleanup_loop rest _ _) as [[v0 s0] e0] eqn:L.
        intros [= <- <- <-].
        apply IH in L as (answers & Hm & Ha & -> & -> & Hi).
        exists ((img, HTTP 200) :: answers).
        unfold kept_records. simpl. rewrite Hm, <- app_assoc.
        repeat split; try assumption.
        apply answered_cons; [|exact Ha].
        exists (world s). simpl. now rewrite G.
      * rewrite (cleanup_loop_dropped _ _ _ _ _ _ G Hc).
        destruct (cleanup_loop rest _ _) as [[v0 s0] e0] eqn:L.
        intros [= <- <- <-].
        apply IH in L as (answers & Hm & Ha & -> & -> & Hi).
        exists ((img, HTTP code) :: answers).
        unfold kept_records, pruned_index. simpl.
        apply Z.eqb_neq in Hc. rewrite Hc. simpl. rewrite Hm.
        repeat split; try assumption.
        apply answered_cons; [|exact Ha].
        exists (world s). simpl. now rewrite G.
Qed.

(** A run of the cleanup: nothing at all without a ledger, and otherwise
    the ledger and the index that go with the answers. *)
Lemma cleanup_invalid_images_cases (name : string) (s : State) :
  (ledger name s = [] /\ cleanup_invalid_images name s = (tt, s, []))
  \/ exists u answers s',
       Mongo.find_one (Mongo.by_username name) (users s) = Some u
       /\ uploads u = Some (map fst answers)
       /\ answered answers
       /\ cleanup_invalid_images name s = (tt, s', requests_of answers)
       /\ users s' = Mongo.update_one (Mongo.by_username name)
                       (Mongo.set_uploads (kept_records answers)) (users s)
       /\ image_hashes s' = pruned_index answers (image_hashes s).
Proof.
  destruct (Mongo.find_one (Mongo.by_username name) (users s)) as [u|] eqn:Hu.
  2:{ left. split; [unfold ledger; now rewrite Hu|].
      apply cleanup_invalid_images_no_ledger. now left. }
  destruct (uploads u) as [imgs|] eqn:Hl.
  2:{ left. split; [unfold ledger; now rewrite Hu, Hl|].
      apply cleanup_invalid_images_no_ledger. right. eauto. }
  right.
  destruct (cleanup_loop imgs [] s) as [[v sa] ea] eqn:L.
  destruct (cleanup_loop_answers _ _ _ _ _ _ L)
    as (answers & Hm & Ha & -> & -> & Hi).
  exists u, answers. eexists. rewrite Hm.
  split; [reflexivity|]. split; [exact Hl|]. split; [exact Ha|].
  split; [apply (cleanup_invalid_images_run _ _ _ _ _ _ _ Hu Hl L)|].
  simpl. split; [reflexivity | exact Hi].
Qed.

Lemma ledger_after_set_uploads (name : string) (v : list UploadRecord)
      (s s' : State) (u : UserAccount) :
  Mongo.find_one (Mongo.by_username name) (users s) = Some u ->
  users s' = Mongo.update_one (Mongo.by_username name)
               (Mongo.set_uploads v) (users s) ->
  ledger name s' = v.
Proof.
  intros Hu E. unfold ledger. rewrite E.
  rewrite MongoFacts.find_one_update_one
    by (intros d; apply MongoFacts.by_username_set_uploads).
  now rewrite Hu.
Qed.

Lemma pruned_index_incl answers :
  forall index, incl (pruned_index answers index) index.
Proof.
  unfold pruned_index.
  induction answers as [|p rest IH]; intros index; simpl; [apply incl_refl|].
  destruct (other_status (snd p)); [|apply IH].
  eapply incl_tran; [apply IH | apply CollectionFacts.delete_one_incl].
Qed.

Lemma pruned_index_NoDup answers :
  forall index, NoDup (map hash index) ->
                NoDup (map hash (pruned_index answers index)).
Proof.
  unfold pruned_index.
  induction answers as [|p rest IH]; intros index H; simpl; [exact H|].
  destruct (other_status (snd p)); [|now apply IH].
  apply IH. now apply CollectionFacts.delete_one_NoDup.
Qed.

Lemma pruned_index_keeps answers :
  forall index e,
    In e index ->
    ~ In (hash e) (map img_hash (map fst answers)) ->
    In e (pruned_index answers index).
Proof.
  unfold pruned_index.
  induction answers as [|p rest IH]; intros index e He Hn; simpl; [exact He|].
  simpl in Hn.
  destruct (other_status (snd p)).
  - apply IH; [|tauto]. apply CollectionFacts.delete_one_keeps; [exact He|].
    unfold Mongo.by_hash. apply String.eqb_neq. intros E. apply Hn. now left.
  - apply IH; [exact He | tauto].
Qed.

Lemma pruned_index_none answers :
  forall index h,
    Mongo.find_one (Mongo.by_hash h) index = None ->
    Mongo.find_one (Mongo.by_hash h) (pruned_index answers index) = None.
Proof.
  intros index h. rewrite !CollectionFacts.find_one_none_iff.
  intros H d Hd. apply H. now apply (pruned_index_incl answers index).
Qed.

Lemma kept_records_incl answers : incl (kept_records answers) (map fst answers).
Proof.
  unfold kept_records. intros r Hr.
  apply in_map_iff in Hr as (p & <- & Hp). apply filter_In in Hp as [Hp _].
  now apply in_map.
Qed.

Lemma reachable_not_other r : reachable r = true -> other_status r = false.
Proof. destruct r; simpl; [discriminate|]. now intros ->. Qed.

Lemma pruned_index_deletes answers :
  forall index p,
    NoDup (map hash index) ->
    In p answers -> other_status (snd p) = true ->
    Mongo.find_one (Mongo.by_hash (img_hash (fst p))) (pruned_index answers index)
    = None.
Proof.
  induction answers as [|q rest IH]; intros index p Hn Hin Ho;
    [destruct Hin|]. destruct Hin as [-> | Hp].
  - unfold pruned_index. simpl. rewrite Ho.
    change (fold_left _ rest ?i) with (pruned_index rest i).
    apply pruned_index_none. now apply CollectionFacts.delete_by_hash_none.
  - unfold pruned_index. simpl.
    change (fold_left _ rest ?i) with (pruned_index rest i).
    destruct (other_status (snd q)).
    + apply IH; [|exact Hp | exact Ho].
      now apply CollectionFacts.delete_one_NoDup.
    + now apply IH.
Qed.

Lemma kept_records_filter (ok : string -> bool) answers :
  answered answers ->
  (forall r w, In r (map fst answers) ->
               reachable (fst (requests_get (img_url r) w)) = ok (img_url r)) ->
  kept_records answers = filter (fun r => ok (img_url r)) (map fst answers).
Proof.
  unfold kept_records.
  induction answers as [|p rest IH]; intros Ha Hok; simpl; [reflexivity|].
  destruct (Ha p (or_introl eq_refl)) as (w & Hw).
  rewrite <- (Hok (fst p) w (or_introl eq_refl)), Hw.
  assert (E : map fst (filter (fun q => reachable (snd q)) rest)
              = filter (fun r => ok (img_url r)) (map fst rest)).
  { apply IH.
    - intros q Hq. apply Ha. now right.
    - intros r w' Hr. apply Hok. now right. }
  destruct (reachable (snd p)); simpl; now rewrite E.
Qed.

(** X15: A cleanup read off its answers: for an account with a ledger, the run
    asks for the URL of each record once, in order; the ledger afterwards
    holds the records whose answer was a 200, in order; and the index has
    lost, for each answer with another status, the first entry of the
    fingerprint of the record. An answer that raised costs the record and
    nothing in the index. *)
Theorem cleanup_invalid_images_by_answers
        (name : string) (s : State) (u : UserAccount)
        (imgs : list UploadRecord) :
  Mongo.find_one (Mongo.by_username name) (users s) = Some u ->
  uploads u = Some imgs ->
  let '(_, s', evs) := cleanup_invalid_images name s in
  exists answers,
    map fst answers = imgs
    /\ answered answers
    /\ evs = requests_of answers
    /\ ledger name s' = kept_records answers
    /\ image_hashes s' = pruned_index answers (image_hashes s).
Proof.
  intros Hu Hl.
  destruct (cleanup_loop imgs [] s) as [[v sa] ea] eqn:L.
  rewrite (cleanup_invalid_images_run _ _ _ _ _ _ _ Hu Hl L).
  destruct (cleanup_loop_answers _ _ _ _ _ _ L)
    as (answers & Hm & Ha & -> & -> & Hi).
  exists answers. repeat split; try assumption.
  eapply ledger_after_set_uploads; [exact Hu | reflexivity].
Qed.

(** X16: A cleanup only removes: it creates no account and changes no username
    and no password hash; every record of the ledger afterwards was in it
    before, and every index entry afterwards was in the index before; and it
    makes as many requests as the ledger has records, and no save. *)
Theorem cleanup_invalid_images_only_removes (name : string) (s : State) :
  let '(_, s', evs) := cleanup_invalid_images name s in
  map username (users s') = map username (users s)
  /\ map password_hash (users s') = map password_hash (users s)
  /\ incl (ledger name s') (ledger name s)
  /\ incl (image_hashes s') (image_hashes s)
  /\ List.length evs = List.length (ledger name s)
  /\ count_saves evs = 0%nat.
Proof.
  destruct (cleanup_invalid_images_cases name s)
    as [[Hl ->] | (u & answers & s' & Hu & Hup & Ha & -> & Hus & Hi)].
  - rewrite Hl. repeat split; apply incl_refl.
  - assert (El : ledger name s = map fst answers)
      by (unfold ledger; now rewrite Hu, Hup).
    rewrite (ledger_after_set_uploads _ _ _ _ _ Hu Hus), El, Hi, Hus.
    repeat split.
    + apply CollectionFacts.map_update_one. reflexivity.
    + apply CollectionFacts.map_update_one. reflexivity.
    + apply kept_records_incl.
    + apply pruned_index_incl.
    + unfold requests_of. now rewrite !length_map.
    + unfold count_saves, requests_of. clear.
      induction answers as [|p rest IH]; simpl; [reflexivity | exact IH].
Qed.

(** X17: A cleanup for one username leaves the account document of every other
    username as it is, and so its ledger, even when it deletes the index
    entry of an image that ledger holds. *)
Theorem cleanup_invalid_images_other_accounts (name who : string) (s : State) :
  who <> name ->
  let s' := snd (fst (cleanup_invalid_images name s)) in
  Mongo.find_one (Mongo.by_username who) (users s')
  = Mongo.find_one (Mongo.by_username who) (users s)
  /\ ledger who s' = ledger who s.
Proof.
  intros Hne.
  destruct (cleanup_invalid_images_cases name s)
    as [[Hl ->] | (u & answers & s' & Hu & Hup & Ha & -> & Hus & Hi)];
    simpl; [now split|].
  assert (E : Mongo.find_one (Mongo.by_username who) (users s')
              = Mongo.find_one (Mongo.by_username who) (users s)).
  { rewrite Hus. apply CollectionFacts.find_one_update_one_other.
    - now apply CollectionFacts.by_username_other.
    - reflexivity. }
  split; [exact E|]. unfold ledger. now rewrite E.
Qed.

(** X18: A cleanup deletes index entries only for fingerprints of the ledger it
    walks: an entry whose fingerprint no record of that ledger has is still
    in the index afterwards. *)
Theorem cleanup_invalid_images_keeps_foreign_entries
        (name : string) (s : State) (e : HashEntry) :
  In e (image_hashes s) ->
  ~ In (hash e) (map img_hash (ledger name s)) ->
  In e (image_hashes (snd (fst (cleanup_invalid_images name s)))).
Proof.
  intros He Hn.
  destruct (cleanup_invalid_images_cases name s)
    as [[Hl ->] | (u & answers & s' & Hu & Hup & Ha & -> & Hus & Hi)];
    simpl; [exact He|].
  rewrite Hi. apply pruned_index_keeps; [exact He|].
  unfold ledger in Hn. now rewrite Hu, Hup in Hn.
Qed.

(** X19: When the answer of each URL of the ledger is settled by [ok] at every
    request, the ledger after the cleanup is the old one filtered by [ok],
    in order. *)
Theorem cleanup_invalid_images_keeps_reachable
        (name : string) (s : State) (ok : string -> bool) :
  (forall r w, In r (ledger name s) ->
               reachable (fst (requests_get (img_url r) w)) = ok (img_url r)) ->
  ledger name (snd (fst (cleanup_invalid_images name s)))
  = filter (fun r => ok (img_url r)) (ledger name s).
Proof.
  intros Hok.
  destruct (cleanup_invalid_images_cases name s)
    as [[Hl ->] | (u & answers & s' & Hu & Hup & Ha & -> & Hus & Hi)]; simpl.
  - now rewrite Hl.
  - assert (El : ledger name s = map fst answers)
      by (unfold ledger; now rewrite Hu, Hup).
    rewrite (ledger_after_set_uploads _ _ _ _ _ Hu Hus), El.
    apply kept_records_filter; [exact Ha|]. now rewrite <- El.
Qed.

(** X20: The branch for a status other than 200: when the index has one entry
    per fingerprint, a record of the ledger whose URL answers with such a
    status at every request is gone from the ledger after the cleanup, and
    the index has no entry for its fingerprint. *)
Theorem cleanup_invalid_images_deletes_index_entry
        (name : string) (s : State) (r : UploadRecord) :
  NoDup (map hash (image_hashes s)) ->
  In r (ledger name s) ->
  (forall w, other_status (fst (requests_get (img_url r) w)) = true) ->
  let s' := snd (fst (cleanup_invalid_images name s)) in
  ~ In r (ledger name s')
  /\ Mongo.find_one (Mongo.by_hash (img_hash r)) (image_hashes s') = None.
Proof.
  intros Hn Hr Ho.
  destruct (cleanup_invalid_images_cases name s)
    as [[Hl ->] | (u & answers & s' & Hu & Hup & Ha & -> & Hus & Hi)]; simpl.
  { rewrite Hl in Hr. destruct Hr. }
  assert (El : ledger name s = map fst answers)
    by (unfold ledger; now rewrite Hu, Hup).
  rewrite (ledger_after_set_uploads _ _ _ _ _ Hu Hus), Hi. split.
  - unfold kept_records. intros Hin.
    apply in_map_iff in Hin as (p & <- & Hp).
    apply filter_In in Hp as [Hp Hk].
    destruct (Ha p Hp) as (w & Hw).
    specialize (Ho w). rewrite Hw in Ho.
    apply reachable_not_other in Hk. congruence.
  - rewrite El in Hr. apply in_map_iff in Hr as (p & <- & Hp).
    apply pruned_index_deletes; [exact Hn | exact Hp|].
    destruct (Ha p Hp) as (w & Hw). rewrite <- Hw. apply Ho.
Qed.

(** X21: When the index has one entry per fingerprint, it still has after a
    cleanup. *)
Theorem cleanup_invalid_images_index_no_duplicates (name : string) (s : State) :
  NoDup (map hash (image_hashes s)) ->
  NoDup (map hash (image_hashes (snd (fst (cleanup_invalid_images name s))))).
Proof.
  intros Hn.
  destruct (cleanup_invalid_images_cases name s)
    as [[Hl ->] | (u & answers & s' & Hu & Hup & Ha & -> & Hus & Hi)];
    simpl; [exact Hn|].
  rewrite Hi. now apply pruned_index_NoDup.
Qed.

End CleanupFurther.

(** ** The login form *)

Section LoginForm.
Context {SV : Services}.

Lemma isalnum_not_empty (name : string) :
  PyStr.isalnum name = true -> String.eqb name "" = false.
Proof. destruct name; [discriminate | reflexivity]. Qed.

(** X22: First login under a new alphanumeric username with a password that is
    not empty: the account is created at the end of [users], the session is
    authenticated under that username, and the cleanup that follows finds an
    empty ledger, so that no request is made and the index is untouched. *)
Theorem login_new_user
        (name password : string) (session : SessionState) (s : State) :
  PyStr.isalnum name = true ->
  password <> EmptyString ->
  Mongo.find_one (Mongo.by_username name) (users s) = None ->
  exists s',
    login name password session s
    = (({| authenticated := true; session_username := Some name |},
        Welcome name), s', [])
    /\ users s' = users s ++ [new_account name password]
    /\ image_hashes s' = image_hashes s
    /\ world s' = world s.
Proof.
  intros A Hp F. unfold login.
  rewrite (isalnum_not_empty _ A).
  apply String.eqb_neq in Hp. rewrite Hp. cbn [orb]. cbv beta iota.
  unfold bind at 1. rewrite authenticate_user_run, A, F. cbn [negb]. cbv iota.
  set (s1 := {| users := Mongo.insert_one (new_account name password) (users s);
                image_hashes := image_hashes s; world := world s |}).
  assert (F1 : Mongo.find_one (Mongo.by_username name) (users s1)
               = Some (new_account name password)).
  { apply MongoFacts.find_one_insert_one; [exact F|].
    unfold Mongo.by_username. simpl. apply String.eqb_refl. }
  unfold bind.
  rewrite (cleanup_invalid_images_run name s1 (new_account name password)
             [] [] s1 [] F1 eq_refl eq_refl).
  rewrite (MongoFacts.update_one_fixed _ _ _ (new_account name password) F1 eq_refl).
  eexists. split; [reflexivity|]. simpl. repeat split.
Qed.

(** X23: A login that is turned down, for an empty field or because
    [authenticate_user] answers [false], changes neither the session nor the
    state and makes no request; the message is one of the two errors. *)
Theorem login_refused_changes_nothing
        (name password : string) (session : SessionState) (s : State) :
  name = EmptyString \/ password = EmptyString
  \/ fst (fst (authenticate_user name password s)) = false ->
  exists notice,
    login name password session s = ((session, notice), s, [])
    /\ (notice = EnterBoth \/ notice = AuthenticationFailed).
Proof.
  intros H. unfold login.
  destruct (String.eqb name "" || String.eqb password "") eqn:E.
  { exists EnterBoth. split; [reflexivity | now left]. }
  apply orb_false_iff in E as [E1 E2].
  apply String.eqb_neq in E1, E2.
  destruct H as [H | [H | H]]; try contradiction.
  exists AuthenticationFailed. split; [|now right].
  unfold bind. rewrite authenticate_user_run in *.
  destruct (negb (PyStr.isalnum name)); [reflexivity|].
  destruct (Mongo.find_one _ (users s)) as [u|]; simpl in *.
  - now rewrite H.
  - discriminate H.
Qed.

(** X24: A login of an existing account with its password is a cleanup of its
    ledger: the state and the requests are those of
    [cleanup_invalid_images] on the state before the login. *)
Theorem login_runs_cleanup
        (name password : string) (session : SessionState) (s : State)
        (u : UserAccount) :
  PyStr.isalnum name = true ->
  password <> EmptyString ->
  Mongo.find_one (Mongo.by_username name) (users s) = Some u ->
  hash_password password = password_hash u ->
  login name password session s
  = let '(_, s', evs) := cleanup_invalid_images name s in
    (({| authenticated := true; session_username := Some name |},
      Welcome name), s', evs).
Proof.
  intros A Hp F Hh. unfold login.
  rewrite (isalnum_not_empty _ A).
  apply String.eqb_neq in Hp. rewrite Hp. cbn [orb]. cbv beta iota.
  unfold bind at 1. rewrite authenticate_user_run, A, F. cbn [negb]. cbv iota.
  rewrite Hh, String.eqb_refl. unfold bind, ret.
  destruct (cleanup_invalid_images name s) as [[[] s'] evs].
  now rewrite app_nil_r.
Qed.

End LoginForm.

(** ** File names and the extension gate *)

Module StringFacts.
Import PyStr.

Lemma append_empty_r (s : string) : (s ++ "")%string = s.
Proof. induction s as [|a s IH]; simpl; [reflexivity | now rewrite IH]. Qed.

Lemma length_append (s1 s2 : string) :
  String.length (s1 ++ s2) = (String.length s1 + String.length s2)%nat.
Proof. induction s1 as [|a s1 IH]; simpl; [reflexivity | now rewrite IH]. Qed.

Lemma substring_all (s : string) : substring 0 (String.length s) s = s.
Proof. induction s as [|a s IH]; simpl; [reflexivity | now rewrite IH]. Qed.

Lemma substring_none (n : nat) (s : string) : substring n 0 s = EmptyString.
Proof.
  revert n. induction s as [|a s IH]; intros [|n]; simpl; try reflexivity.
  apply IH.
Qed.

(** [p[:k] + p[k:] == p], for every [k]. *)
Lemma substring_split (s : string) :
  forall k, (substring 0 k s ++ substring k (String.length s - k) s)%string = s.
Proof.
  induction s as [|a s IH]; intros [|k]; simpl; try reflexivity.
  - now rewrite substring_all.
  - now rewrite IH.
Qed.

Lemma substring_skip (s1 s2 : string) (m : nat) :
  substring (String.length s1) m (s1 ++ s2) = substring 0 m s2.
Proof. induction s1 as [|a s1 IH]; simpl; [reflexivity | exact IH]. Qed.

(** The index [rfind] gives is -1 or lies in the string. *)
Lemma rfind_from_range (c : ascii) (s : string) :
  forall i, 0 <= i ->
    rfind_from c s i = -1
    \/ i <= rfind_from c s i < i + Z.of_nat (String.length s).
Proof.
  induction s as [|a s IH]; intros i Hi; simpl rfind_from; [now left|].
  destruct (IH (i + 1) ltac:(lia)) as [E | E].
  - rewrite E. simpl. destruct (Ascii.eqb a c); [right | now left].
    simpl String.length. lia.
  - destruct (Z.leb_spec 0 (rfind_from c s (i + 1))); [|lia].
    right. simpl String.length. lia.
Qed.

Lemma rfind_from_absent (c : ascii) (s : string) :
  (forall a, In a (list_ascii_of_string s) -> a <> c) ->
  forall i, rfind_from c s i = -1.
Proof.
  induction s as [|a s IH]; intros H i; simpl; [reflexivity|].
  rewrite IH by (intros b Hb; apply H; now right). simpl.
  destruct (Ascii.eqb_spec a c) as [E | _]; [|reflexivity].
  exfalso. apply (H a); [now left | exact E].
Qed.

Lemma rfind_from_append (c : ascii) (s1 s2 : string) :
  forall i, 0 <= i ->
    rfind_from c (s1 ++ s2) i
    = if 0 <=? rfind_from c s2 (i + Z.of_nat (String.length s1))
      then rfind_from c s2 (i + Z.of_nat (String.length s1))
      else rfind_from c s1 i.
Proof.
  induction s1 as [|a s1 IH]; intros i Hi.
  - simpl. rewrite Z.add_0_r.
    destruct (rfind_from_range c s2 i Hi) as [E | E].
    + now rewrite E.
    + destruct (Z.leb_spec 0 (rfind_from c s2 i)); [reflexivity | lia].
  - change (rfind_from c (String a s1 ++ s2) i)
      with (let r := rfind_from c (s1 ++ s2) (i + 1) in
            if 0 <=? r then r else if Ascii.eqb a c then i else -1).
    change (rfind_from c (String a s1) i)
      with (let r := rfind_from c s1 (i + 1) in
            if 0 <=? r then r else if Ascii.eqb a c then i else -1).
    cbv zeta. rewrite IH by lia.
    replace (i + Z.of_nat (String.length (String a s1)))
      with (i + 1 + Z.of_nat (String.length s1))
      by (change (String.length (String a s1)) with (S (String.length s1)); lia).
    destruct (0 <=? rfind_from c s2 (i + 1 + Z.of_nat (String.length s1)))
      eqn:E; [now rewrite E | reflexivity].
Qed.

(** Lowering touches neither the dots nor the slashes. *)
Lemma char_lower_dot (a : ascii) :
  Ascii.eqb (char_lower a) "." = Ascii.eqb a ".".
Proof. destruct a as [[] [] [] [] [] [] [] []]; reflexivity. Qed.

Lemma char_lower_slash (a : ascii) :
  Ascii.eqb (char_lower a) "/" = Ascii.eqb a "/".
Proof. destruct a as [[] [] [] [] [] [] [] []]; reflexivity. Qed.

Lemma char_lower_idempotent (a : ascii) :
  char_lower (char_lower a) = char_lower a.
Proof. destruct a as [[] [] [] [] [] [] [] []]; reflexivity. Qed.

Lemma lower_idempotent (s : string) : lower (lower s) = lower s.
Proof.
  induction s as [|a s IH]; simpl; [reflexivity|].
  now rewrite char_lower_idempotent, IH.
Qed.

Lemma length_lower (s : string) : String.length (lower s) = String.length s.
Proof. induction s as [|a s IH]; simpl; [reflexivity | now rewrite IH]. Qed.

Lemma substring_lower (s : string) :
  forall n m, substring n m (lower s) = lower (substring n m s).
Proof.
  induction s as [|a s IH]; intros [|n] [|m]; simpl; try reflexivity.
  - now rewrite IH.
  - apply IH.
  - apply IH.
Qed.

Lemma get_lower (s : string) :
  forall n, String.get n (lower s) = option_map char_lower (String.get n s).
Proof.
  induction s as [|a s IH]; intros [|n]; simpl; try reflexivity. apply IH.
Qed.

Lemma rfind_from_lower (c : ascii) (s : string) :
  (forall a, Ascii.eqb (char_lower a) c = Ascii.eqb a c) ->
  forall i, rfind_from c (lower s) i = rfind_from c s i.
Proof.
  intros Hc. induction s as [|a s IH]; intros i; simpl; [reflexivity|].
  now rewrite IH, Hc.
Qed.

Lemma finds_non_dot_lower (p : string) :
  forall k i, os_path.finds_non_dot (lower p) i k = os_path.finds_non_dot p i k.
Proof.
  induction k as [|k IH]; intros i; simpl; [reflexivity|].
  rewrite get_lower. destruct (String.get i p) as [a|]; simpl; [|reflexivity].
  rewrite char_lower_dot. now rewrite IH.
Qed.

(** [splitext] commutes with lowering. *)
Lemma splitext_lower (p : string) :
  os_path.splitext (lower p)
  = (lower (fst (os_path.splitext p)), lower (snd (os_path.splitext p))).
Proof.
  unfold os_path.splitext, rfind, slice_to, slice_from.
  rewrite !(rfind_from_lower "/" p char_lower_slash),
          !(rfind_from_lower "." p char_lower_dot),
          finds_non_dot_lower, length_lower, !substring_lower.
  now destruct (_ && _).
Qed.

End StringFacts.

Section FileNames.
Context {SV : Services}.
Import PyStr.

(** X25: [os.path.splitext] only cuts: the root followed by the extension is the
    name. *)
Theorem splitext_concat (p : string) :
  (fst (os_path.splitext p) ++ snd (os_path.splitext p))%string = p.
Proof.
  unfold os_path.splitext, slice_to, slice_from.
  destruct (_ && _); simpl fst; simpl snd.
  - apply StringFacts.substring_split.
  - apply StringFacts.append_empty_r.
Qed.

(** On the strings of this model, where lowering works character by
    character, a name and its lowered form have the same extension for the
    test. *)
Lemma file_ext_lower (file_name : string) :
  file_ext (lower file_name) = file_ext file_name.
Proof.
  unfold file_ext. rewrite StringFacts.splitext_lower. simpl snd.
  apply StringFacts.lower_idempotent.
Qed.

(** X26: The verdict of the gate does not depend on the case of the name: a
    name is accepted exactly when its lowered form is, and as the name is
    used for nothing else, an upload under the lowered name is the same run
    as the upload under the name. *)
Theorem extension_gate_case_insensitive
        (name : string) (image_data : bytes) (file_name : string) (s : State) :
  existsb (String.eqb (file_ext (lower file_name))) accepted_extensions
  = existsb (String.eqb (file_ext file_name)) accepted_extensions
  /\ upload_image name image_data (lower file_name) s
     = upload_image name image_data file_name s.
Proof.
  split.
  - now rewrite file_ext_lower.
  - rewrite !upload_image_run. cbv zeta. now rewrite file_ext_lower.
Qed.

Lemma accepted_extension_facts (ext : string) :
  In ext accepted_extensions ->
  (forall k, rfind_from "." ext k = k)
  /\ (forall k, rfind_from "/" ext k = -1)
  /\ lower ext = ext.
Proof.
  intros [<- | [<- | [<- | [<- | [<- | []]]]]]; repeat split.
Qed.

(** X27: A plain name passes the gate: a stem that does not start with a dot and
    holds no slash, followed by one of the five accepted extensions, has
    that extension for the test. *)
Theorem file_ext_plain_name (a : ascii) (stem ext : string) :
  a <> "."%char ->
  (forall b, In b (list_ascii_of_string (String a stem)) -> b <> "/"%char) ->
  In ext accepted_extensions ->
  file_ext (String a stem ++ ext) = ext
  /\ existsb (String.eqb (file_ext (String a stem ++ ext))) accepted_extensions
     = true.
Proof.
  intros Ha Hs He.
  destruct (accepted_extension_facts ext He) as (Hdot & Hsl & Hlow).
  assert (E : file_ext (String a stem ++ ext) = ext).
  { unfold file_ext, os_path.splitext, rfind.
    rewrite !StringFacts.rfind_from_append by lia.
    rewrite Hdot, Hsl. rewrite (StringFacts.rfind_from_absent "/" _ Hs).
    rewrite Z.add_0_l.
    change (0 <=? -1) with false. cbv iota.
    destruct (Z.leb_spec 0 (Z.of_nat (String.length (String a stem)))); [|lia].
    destruct (Z.ltb_spec (-1) (Z.of_nat (String.length (String a stem)))); [|lia].
    change (-1 + 1) with 0. rewrite Z.sub_0_r, Nat2Z.id.
    change (Z.to_nat 0) with O.
    assert (N : os_path.finds_non_dot (String a stem ++ ext) 0
                  (String.length (String a stem)) = true).
    { simpl. destruct (Ascii.eqb_spec a "."); [contradiction | reflexivity]. }
    rewrite N. cbn [andb snd].
    unfold slice_from. rewrite Nat2Z.id, StringFacts.length_append.
    replace (String.length (String a stem) + String.length ext
             - String.length (String a stem))%nat
      with (String.length ext) by lia.
    rewrite StringFacts.substring_skip, StringFacts.substring_all.
    exact Hlow. }
  split; [exact E|]. apply accepted_iff. now rewrite E.
Qed.

(** X28: Names without an extension are rejected: a name with no dot at all, and
    a name that is one dot followed by neither dot nor slash (such as
    [.png]), are invalid formats, with the state unchanged. *)
Theorem upload_image_rejects_names_without_extension
        (name : string) (image_data : bytes) (file_name : string) (s : State) :
  (forall a, In a (list_ascii_of_string file_name) -> a <> "."%char)
  \/ (exists base,
        file_name = String "." base
        /\ forall a, In a (list_ascii_of_string base) ->
                     a <> "."%char /\ a <> "/"%char) ->
  file_ext file_name = EmptyString
  /\ upload_image name image_data file_name s
     = (InvalidFormat, s, [EvHash image_data]).
Proof.
  intros H.
  assert (E : file_ext file_name = EmptyString).
  { unfold file_ext, os_path.splitext, rfind.
    destruct H as [H | (base & -> & H)].
    - rewrite (StringFacts.rfind_from_absent "." _ H).
      destruct (StringFacts.rfind_from_range "/" file_name 0 ltac:(lia)) as [R | R].
      + rewrite R. reflexivity.
      + destruct (Z.ltb_spec (rfind_from "/" file_name 0) (-1)); [lia|].
        reflexivity.
    - change (rfind_from "/" (String "." base) 0)
        with (let r := rfind_from "/" base (0 + 1) in
              if 0 <=? r then r else -1).
      change (rfind_from "." (String "." base) 0)
        with (let r := rfind_from "." base (0 + 1) in
              if 0 <=? r then r else 0).
      cbv zeta.
      rewrite (StringFacts.rfind_from_absent "." base)
        by (intros a Ha; now apply H).
      rewrite (StringFacts.rfind_from_absent "/" base)
        by (intros a Ha; now apply H).
      reflexivity. }
  split; [exact E|].
  rewrite upload_image_run. cbv zeta. rewrite E. reflexivity.
Qed.

(** X29: A name that passes the gate ends with one of the five extensions, in
    some letter case: it is a root followed by an extension whose lowered
    form is accepted. *)
Theorem accepted_name_ends_with_extension (file_name : string) :
  In (file_ext file_name) accepted_extensions ->
  exists root ext,
    file_name = (root ++ ext)%string
    /\ In (lower ext) accepted_extensions
    /\ ext <> EmptyString.
Proof.
  intros H.
  exists (fst (os_path.splitext file_name)), (snd (os_path.splitext file_name)).
  split; [|split].
  - unfold os_path.splitext, slice_to, slice_from.
    destruct (_ && _); simpl fst; simpl snd.
    + symmetry. apply StringFacts.substring_split.
    + symmetry. apply StringFacts.append_empty_r.
  - exact H.
  - intros E. unfold file_ext in H. rewrite E in H. simpl in H.
    destruct H as [H|[H|[H|[H|[H|[]]]]]]; discriminate H.
Qed.

End FileNames.

(** ** The further properties on the small instance *)

Module FurtherScenarios.
Import Demo.

Lemma authenticate_user_unique_usernames_witness :
  NoDup (map username
           (users (snd (fst (authenticate_user (SV := sunny) "carol" "secret"
                                               (fresh true [])))))).
Proof.
  apply (authenticate_user_unique_usernames (SV := sunny)).
  simpl. repeat constructor; simpl; intuition discriminate.
Defined.

Lemma register_then_login_witness :
  let s1 := snd (fst (authenticate_user (SV := sunny) "carol" "secret"
                                        (fresh true []))) in
  authenticate_user (SV := sunny) "carol" "secret" s1 = (true, s1, [])
  /\ authenticate_user (SV := sunny) "carol" "guess" s1 = (false, s1, []).
Proof.
  destruct (register_then_login (SV := sunny) "carol" "secret" (fresh true [])
              eq_refl eq_refl) as [H1 H2].
  split; [exact H1|]. apply H2. vm_compute. intros H. discriminate H.
Defined.

Lemma upload_image_index_no_duplicates_witness :
  NoDup (map hash
           (image_hashes
              (snd (fst (upload_image (SV := sunny) "alice" small_image
                                      "cat.png" (holding true [] ["a"%string])))))).
Proof.
  apply (upload_image_index_no_duplicates (SV := sunny)).
  simpl. repeat constructor. intros [].
Defined.

Lemma upload_image_other_accounts_witness :
  let s := fresh true [] in
  let s' := snd (fst (upload_image (SV := sunny) "alice" small_image
                                   "cat.png" s)) in
  Mongo.find_one (Mongo.by_username "bob") (users s')
  = Mongo.find_one (Mongo.by_username "bob") (users s)
  /\ ledger "bob" s' = ledger "bob" s.
Proof.
  apply (upload_image_other_accounts (SV := sunny)).
  intros H. discriminate H.
Defined.

Lemma upload_image_ledger_grows_witness :
  let s := fresh true [] in
  let '(out, s', _) :=
    upload_image (SV := sunny) "alice" small_image "cat.png" s in
  match outcome_url out with
  | Some link =>
      ledger "alice" s'
      = if existsb (UploadRecord_eqb (record_for (SV := sunny) small_image link))
                   (ledger "alice" s)
        then ledger "alice" s
        else ledger "alice" s ++ [record_for (SV := sunny) small_image link]
  | None => users s' = users s
  end.
Proof.
  exact (upload_image_ledger_grows (SV := sunny) "alice" small_image "cat.png"
           (fresh true []) alice eq_refl).
Defined.

Lemma upload_image_without_account_witness :
  let s := fresh true [] in
  let s' := snd (fst (upload_image (SV := sunny) "carol" small_image
                                   "cat.png" s)) in
  users s' = users s
  /\ get_user_images (SV := sunny) "carol" s' = ([], s', []).
Proof.
  exact (upload_image_without_account (SV := sunny) "carol" small_image
           "cat.png" (fresh true []) eq_refl).
Defined.

Lemma upload_image_saves_normalized_only_witness :
  let evs := snd (upload_image (SV := sunny) "alice" small_image "cat.png"
                               (fresh true [])) in
  "141e010203__compressed.jpg"%string = final_name_of (SV := sunny) small_image
  /\ reformat (SV := sunny) small_image 85 = Some [x01; x02; x03]
  /\ FirebaseStorage = choose_storage_backend [x01; x02; x03]
  /\ (FirebaseStorage = FirebaseStorage
      <-> Z.of_nat (List.length [x01; x02; x03]) <= 143360)
  /\ count_saves evs = 1%nat
  /\ hd_error evs = Some (EvHash small_image).
Proof.
  apply (upload_image_saves_normalized_only (SV := sunny) "alice" small_image
           "cat.png" (fresh true []) FirebaseStorage
           "141e010203__compressed.jpg" [x01; x02; x03] (inr small_url)).
  vm_compute. right. right. left. reflexivity.
Defined.

Lemma upload_then_gallery_witness :
  let s' := snd (fst (upload_image (SV := sunny) "alice" small_image
                                   "cat.png" (fresh true []))) in
  exists listing,
    get_user_images (SV := sunny) "alice" s' = (listing, s', [])
    /\ In (final_name_of (SV := sunny) small_image, small_url) listing.
Proof.
  cbv zeta.
  pose proof (upload_then_gallery (SV := sunny) "alice" small_image "cat.png"
                (fresh true []) alice small_url eq_refl) as H.
  destruct (upload_image (SV := sunny) "alice" small_image "cat.png"
                         (fresh true [])) as [[out s'] evs] eqn:E.
  cbn [fst snd]. apply H.
  vm_compute in E. injection E as <- _ _. reflexivity.
Defined.

Lemma upload_image_ledger_no_duplicates_witness :
  NoDup (ledger "alice"
           (snd (fst (upload_image (SV := sunny) "alice" small_image
                                   "cat.png" (fresh true []))))).
Proof.
  apply (upload_image_ledger_no_duplicates (SV := sunny)).
  vm_compute. constructor.
Defined.

Lemma cleanup_invalid_images_by_answers_witness :
  let s := holding true [(img_url (record_of "a"), HTTP 404)] ["a"; "b"]%string in
  let '(_, s', evs) :=
    cleanup_invalid_images (SV := answering "a" (HTTP 404)) "alice" s in
  exists answers,
    map fst answers = map record_of ["a"; "b"]%string
    /\ answered (SV := answering "a" (HTTP 404)) answers
    /\ evs = requests_of answers
    /\ ledger "alice" s' = kept_records answers
    /\ image_hashes s' = pruned_index answers (image_hashes s).
Proof.
  exact (cleanup_invalid_images_by_answers
           (SV := answering "a" (HTTP 404)) "alice"
           (holding true [(img_url (record_of "a"), HTTP 404)] ["a"; "b"]%string)
           {| username := "alice"; password_hash := "wonderland";
              uploads := Some (map record_of ["a"; "b"]%string) |}
           (map record_of ["a"; "b"]%string) eq_refl eq_refl).
Defined.

Lemma cleanup_invalid_images_other_accounts_witness :
  let s := holding true [(img_url (record_of "a"), HTTP 404)] ["a"; "b"]%string in
  let s' := snd (fst (cleanup_invalid_images
                        (SV := answering "a" (HTTP 404)) "alice" s)) in
  Mongo.find_one (Mongo.by_username "bob") (users s')
  = Mongo.find_one (Mongo.by_username "bob") (users s)
  /\ ledger "bob" s' = ledger "bob" s.
Proof.
  apply (cleanup_invalid_images_other_accounts (SV := answering "a" (HTTP 404))).
  intros H. discriminate H.
Defined.

Lemma cleanup_invalid_images_keeps_foreign_entries_witness :
  In (entry_of "z")
     (image_hashes
        (snd (fst (cleanup_invalid_images
                     (SV := answering "a" (HTTP 404)) "alice"
                     (holding_indexed true [(img_url (record_of "a"), HTTP 404)]
                                      ["a"%string] ["a"; "z"]%string))))).
Proof.
  apply (cleanup_invalid_images_keeps_foreign_entries
           (SV := answering "a" (HTTP 404))).
  - right. left. reflexivity.
  - vm_compute. intros [H | []]. discriminate H.
Defined.

Lemma cleanup_invalid_images_keeps_reachable_witness :
  let s := holding true [(img_url (record_of "a"), HTTP 404)] ["a"; "b"]%string in
  ledger "alice"
    (snd (fst (cleanup_invalid_images
                 (SV := answering "a" (HTTP 404)) "alice" s)))
  = filter (fun r => negb (String.eqb (img_url r) (img_url (record_of "a"))))
           (ledger "alice" s).
Proof.
  apply (cleanup_invalid_images_keeps_reachable
           (SV := answering "a" (HTTP 404)) "alice" _
           (fun target => negb (String.eqb target (img_url (record_of "a"))))).
  intros r w [<- | [<- | []]]; reflexivity.
Defined.

Lemma cleanup_invalid_images_deletes_index_entry_witness :
  let s := holding true [(img_url (record_of "a"), HTTP 404)] ["a"; "b"]%string in
  let s' := snd (fst (cleanup_invalid_images
                        (SV := answering "a" (HTTP 404)) "alice" s)) in
  ~ In (record_of "a") (ledger "alice" s')
  /\ Mongo.find_one (Mongo.by_hash "a") (image_hashes s') = None.
Proof.
  apply (cleanup_invalid_images_deletes_index_entry
           (SV := answering "a" (HTTP 404)) "alice" _ (record_of "a")).
  - simpl. repeat constructor; simpl; intuition discriminate.
  - left. reflexivity.
  - intros w. reflexivity.
Defined.

Lemma cleanup_invalid_images_index_no_duplicates_witness :
  NoDup (map hash
           (image_hashes
              (snd (fst (cleanup_invalid_images
                           (SV := answering "a" (HTTP 404)) "alice"
                           (holding true [(img_url (record_of "a"), HTTP 404)]
                                    ["a"; "b"]%string)))))).
Proof.
  apply (cleanup_invalid_images_index_no_duplicates
           (SV := answering "a" (HTTP 404))).
  simpl. repeat constructor; simpl; intuition discriminate.
Defined.

Lemma login_new_user_witness :
  exists s',
    login (SV := sunny) "carol" "secret" logged_out (fresh true [])
    = (({| authenticated := true; session_username := Some "carol"%string |},
        Welcome "carol"), s', [])
    /\ users s' = [alice; bob; new_account (SV := sunny) "carol" "secret"].
Proof.
  destruct (login_new_user (SV := sunny) "carol" "secret" logged_out
              (fresh true []) eq_refl
              (fun H : "secret"%string = EmptyString =>
                 match H with eq_refl => I end)
              eq_refl)
    as (s' & H1 & H2 & _).
  exists s'. split; [exact H1 | exact H2].
Defined.

Lemma login_refused_changes_nothing_witness :
  exists notice,
    login (SV := sunny) "alice" "" logged_out (fresh true [])
    = ((logged_out, notice), fresh true [], [])
    /\ (notice = EnterBoth \/ notice = AuthenticationFailed).
Proof.
  apply (login_refused_changes_nothing (SV := sunny)).
  right. left. reflexivity.
Defined.

Lemma login_runs_cleanup_witness :
  let s := snd (fst (authenticate_user (SV := sunny) "carol" "secret"
                                       (fresh true []))) in
  login (SV := sunny) "carol" "secret" logged_out s
  = let '(_, s', evs) := cleanup_invalid_images (SV := sunny) "carol" s in
    (({| authenticated := true; session_username := Some "carol"%string |},
      Welcome "carol"), s', evs).
Proof.
  apply (login_runs_cleanup (SV := sunny) "carol" "secret" logged_out _
           (new_account (SV := sunny) "carol" "secret")).
  - reflexivity.
  - intros H. discriminate H.
  - reflexivity.
  - reflexivity.
Defined.

Lemma file_ext_plain_name_witness :
  file_ext "cat.png" = ".png"%string
  /\ existsb (String.eqb (file_ext "cat.png")) accepted_extensions = true.
Proof.
  apply (file_ext_plain_name "c" "at" ".png").
  - intros H. discriminate H.
  - intros b [<- | [<- | [<- | []]]]; intros H; discriminate H.
  - right. right. left. reflexivity.
Defined.

Lemma upload_image_rejects_names_without_extension_witness :
  file_ext "README" = EmptyString
  /\ upload_image (SV := sunny) "alice" small_image "README" (fresh true [])
     = (InvalidFormat, fresh true [], [EvHash small_image]).
Proof.
  apply (upload_image_rejects_names_without_extension (SV := sunny)).
  left. intros a [<- | [<- | [<- | [<- | [<- | [<- | []]]]]]];
    intros H; discriminate H.
Defined.

Lemma accepted_name_ends_with_extension_witness :
  exists root ext,
    "Holiday.JPEG"%string = (root ++ ext)%string
    /\ In (PyStr.lower ext) accepted_extensions
    /\ ext <> EmptyString.
Proof.
  apply (accepted_name_ends_with_extension "Holiday.JPEG").
  vm_compute. right. left. reflexivity.
Defined.

End FurtherScenarios.
